(** * PyTrakt: calendar building, sync payloads, search and scrobbling

    A shallow embedding of [trakt/calendar.py] and [trakt/sync.py].

    Python values are modelled as follows.
    - an exception is a value of [Py.exn]; a computation that may raise
      returns [Py.result];
    - a JSON fragment is a [Py.json]; a [dict] with string keys is a
      [gmap string Py.json], and [d.update(e)] is [e ∪ d] (the entries of
      [e] win);
    - a [datetime] is an integer timestamp, a number is a rational;
    - a [str] is a [string], one character per code point;
    - the builtin [sorted] is a stable insertion sort that computes every
      key first and then compares keys with [<] only;
    - the HTTP collaborator is a trace of the requests issued so far. *)

From Stdlib Require Import ZArith QArith Ascii String List Sorted Permutation Lia.
From stdpp Require Import base option list gmap strings sorting pretty.

Local Open Scope Z_scope.

(* ===================================================================== *)
(** * The Python runtime                                                   *)
(* ===================================================================== *)

Module Py.

Inductive exn : Type :=
  | IndexError
  | KeyError
  | TypeError
  | ValueError
  | AttributeError.

Inductive result (A : Type) : Type :=
  | Ok (a : A)
  | Raise (e : exn).

Arguments Ok {A} a.
Arguments Raise {A} e.

#[global] Instance exn_eq_dec : EqDecision exn.
Proof. solve_decision. Defined.

#[global] Instance result_eq_dec {A} `{EqDecision A} : EqDecision (result A).
Proof. solve_decision. Defined.

#[global] Instance result_ret : MRet result := λ A a, Ok a.

#[global] Instance result_bind : MBind result := λ A B f r,
  match r with
  | Ok a => f a
  | Raise e => Raise e
  end.

Abbreviation datetime := Z.

#[local] Unset Elimination Schemes.

Inductive json : Type :=
  | JNull
  | JBool (b : bool)
  | JNum (q : Q)
  | JStr (s : string)
  | JList (l : list json)
  | JObj (m : gmap string json).

#[local] Set Elimination Schemes.

Abbreviation dict := (gmap string json).

(** [v == s] for a JSON value [v] and a string literal [s]. *)
Definition str_eq (v : json) (s : string) : bool :=
  match v with
  | JStr t => String.eqb t s
  | _ => false
  end.

(** [x < y] on numbers. *)
Definition Qltb (x y : Q) : bool := negb (Qle_bool y x).

(** [', '.join]-style concatenation with a separator. *)
Fixpoint join (sep : string) (l : list string) : string :=
  match l with
  | [] => ""
  | [s] => s
  | s :: l' => s +:+ sep +:+ join sep l'
  end.

(** ** The builtin [sorted(l, key=...)]

    The keys are computed first, one call of [key] per element, in list
    order; the first exception of [key] is the exception of [sorted].  The
    decorated list is then sorted by a stable insertion sort that compares
    keys with [lt] alone: an element is placed before the first element of
    the already sorted suffix that is not smaller than it, so equal keys
    keep their input order.  A comparison that raises aborts the sort. *)

Section sorted.
Context {A K : Type}.
Variable lt : K → K → result bool.

Fixpoint insert (kx : K) (x : A) (l : list (K * A)) : result (list (K * A)) :=
  match l with
  | [] => Ok [(kx, x)]
  | (ky, y) :: l' =>
      b ← lt ky kx;
      if b : bool then r ← insert kx x l'; Ok ((ky, y) :: r)
      else Ok ((kx, x) :: (ky, y) :: l')
  end.

Fixpoint sort (l : list (K * A)) : result (list (K * A)) :=
  match l with
  | [] => Ok []
  | (kx, x) :: l' => s ← sort l'; insert kx x s
  end.

Definition decorate (key : A → result K) (x : A) : result (K * A) :=
  k ← key x; Ok (k, x).

Definition sorted (key : A → result K) (l : list A) : result (list A) :=
  keyed ← mapM (decorate key) l;
  s ← sort keyed;
  Ok (map snd s).

(** What it means for the output to be in order: [le] relates the keys of
    neighbours, and on the undecorated list both keys exist. *)
Definition key_le (le : K → K → Prop) (p q : K * A) : Prop := le p.1 q.1.

Definition by_key (le : K → K → Prop) (key : A → result K) (a b : A) : Prop :=
  ∃ ka kb, key a = Ok ka ∧ key b = Ok kb ∧ le ka kb.

End sorted.

(** [<] on [datetime] values never raises. *)
Definition datetime_lt (a b : datetime) : result bool := Ok (a <? b)%Z.

(** [<] on values that are a [str] or [None]: two strings compare by code
    points, anything involving [None] is a [TypeError]. *)
Definition opt_str_lt (a b : option string) : result bool :=
  match a, b with
  | Some s, Some t => Ok (String.ltb s t)
  | _, _ => Raise TypeError
  end.

(** [a <= b] on values that are a [str] or [None]. *)
Definition opt_str_le (a b : option string) : Prop :=
  ∃ s t, a = Some s ∧ b = Some t ∧ String.leb s t = true.

End Py.

Import Py.

(* ===================================================================== *)
(** * trakt/calendar.py                                                    *)
(* ===================================================================== *)

Module Calendar.

(** Modelled from the spec: the entity classes [TVEpisode], [TVSeason] and
    [TVShow] of [trakt.tv], which are not part of the two source files.  An
    entity keeps its constructor arguments.  A season has a number and the
    list its [episodes] property reads ([_episodes]); a show has the list
    its [seasons] property reads ([_seasons]): [Calendar._build] writes
    [_seasons] and reads both [_seasons] and [seasons] for the same list. *)

Record TVEpisode : Type := mkTVEpisode {
  ep_show : string;
  ep_season : Z;
  ep_number : Z;
  airs_at : datetime;
  ep_kwargs : dict
}.

Record TVSeason : Type := mkTVSeason {
  season : Z;
  _episodes : list TVEpisode
}.

Record TVShow : Type := mkTVShow {
  title : string;
  slug : string;
  show_kwargs : dict;
  _seasons : list TVSeason
}.

(** One row of a TV calendar response: [{show, episode, first_aired}]. The
    show fragment is its title and its other fields, the episode fragment
    its season, its number and its other fields. *)
Record item : Type := mkItem {
  show_title : string;
  show_data : dict;
  episode_season : Z;
  episode_number : Z;
  episode_data : dict;
  first_aired : option string
}.

Section build.

(** [trakt.utils.airs_date], not part of the source files. *)
Variable airs_date : option string → datetime.

(** The seasons the service knows for the show constructed from a title
    and its fields: what the [seasons] property of a fresh [TVShow]
    yields. *)
Variable known_seasons : string → dict → list TVSeason.

(** [TVShow(title, slug=..., **show_data)]: a keyword given twice, which
    is a show fragment with a [slug] field of its own, is a [TypeError]. *)
Definition new_TVShow (t sl : string) (kw : dict) : result TVShow :=
  match kw !! "slug" with
  | Some _ => Raise TypeError
  | None => Ok (mkTVShow t sl kw (known_seasons t kw))
  end.

(** Lines 67-86: the show and the episode of a row, as the constructor
    calls build them when they go through. *)
Definition item_show (it : item) : TVShow :=
  mkTVShow (show_title it) "sodiafagiaugaiugh" (show_data it)
    (known_seasons (show_title it) (show_data it)).

Definition item_episode (it : item) : TVEpisode :=
  mkTVEpisode (title (item_show it)) (episode_season it) (episode_number it)
    (airs_date (first_aired it)) (episode_data it).

(** Lines 87-91: the first season with the episode's season number, with
    its episodes replaced by the episode. *)
Fixpoint find_season (seasons : list TVSeason) (episode : TVEpisode)
  : option TVSeason :=
  match seasons with
  | [] => None
  | s :: rest =>
      if (season s =? ep_season episode)%Z
      then Some (mkTVSeason (season s) [episode])
      else find_season rest episode
  end.

Definition prune (show : TVShow) (episode : TVEpisode) : TVShow :=
  match find_season (_seasons show) episode with
  | Some s => mkTVShow (title show) (slug show) (show_kwargs show) [s]
  | None => show
  end.

(** Lines 66-94: one iteration of the loop over the response. *)
Definition build_step (acc : result (list TVShow)) (it : item)
  : result (list TVShow) :=
  calendar ← acc;
  show ← new_TVShow (show_title it) "sodiafagiaugaiugh" (show_data it);
  let episode :=
    mkTVEpisode (title show) (episode_season it) (episode_number it)
      (airs_date (first_aired it)) (episode_data it) in
  let show := prune show episode in
  if (length (_seasons show) =? 1)%nat then Ok (calendar ++ [show])
  else Ok calendar.

(** The show a row contributes to the calendar, if any, once its show is
    constructed. *)
Definition keep (it : item) : option TVShow :=
  let show := prune (item_show it) (item_episode it) in
  if (length (_seasons show) =? 1)%nat then Some show else None.

(** The calendar before it is sorted: the kept shows in input order. *)
Definition kept_shows (data : list item) : list TVShow := omap keep data.

(** A row has a match when one of the seasons of its show has the season
    number of its episode. *)
Definition has_match (it : item) : bool :=
  existsb (λ s, season s =? episode_season it)%Z
    (known_seasons (show_title it) (show_data it)).

Definition unmatched (data : list item) : nat :=
  length (filter (λ it, has_match it = false) data).

(** Line 107: [x.seasons[0].episodes[0].airs_at]. *)
Definition sort_key (x : TVShow) : result datetime :=
  match _seasons x with
  | [] => Raise IndexError
  | s :: _ =>
      match _episodes s with
      | [] => Raise IndexError
      | e :: _ => Ok (airs_at e)
      end
  end.

(** [Calendar._build] *)
Definition _build (data : list item) : result (list TVShow) :=
  calendar ← fold_left build_step data (Ok []);
  sorted datetime_lt sort_key calendar.

End build.

End Calendar.

Module MovieCalendar.

(** Modelled from the spec: the entity class [Movie] of [trakt.movies],
    which is not part of the two source files.  It keeps its constructor
    arguments. *)
Record Movie : Type := mkMovie {
  released : option string;
  movie_kwargs : dict
}.

(** One row of a movie calendar response: [{movie, released}], both
    optional ([movie.get('movie', {})], [movie.get('released', None)]). *)
Record movie_item : Type := mkMovieItem {
  mi_movie : option dict;
  mi_released : option string
}.

(** [x.released] *)
Definition released_key (x : Movie) : result (option string) :=
  Ok (released x).

(** [Movie(released=released, **m_data)]: a keyword given twice is a
    [TypeError]. *)
Definition new_Movie (rel : option string) (m_data : dict) : result Movie :=
  match m_data !! "released" with
  | Some _ => Raise TypeError
  | None => Ok (mkMovie rel m_data)
  end.

(** Lines 156-159: one iteration of the loop over the response. *)
Definition build_step (acc : result (list Movie)) (row : movie_item)
  : result (list Movie) :=
  calendar ← acc;
  m ← new_Movie (mi_released row) (default ∅ (mi_movie row));
  Ok (calendar ++ [m]).

(** The movie of a row. *)
Definition row_movie (row : movie_item) : Movie :=
  mkMovie (mi_released row) (default ∅ (mi_movie row)).

(** [MovieCalendar._build] *)
Definition _build (data : list movie_item) : result (list Movie) :=
  calendar ← fold_left build_step data (Ok []);
  sorted opt_str_lt released_key calendar.

End MovieCalendar.


(* ===================================================================== *)
(** * trakt/sync.py                                                        *)
(* ===================================================================== *)

Module Sync.

(** Modelled from the spec: a media object ([Movie], [TVShow],
    [TVEpisode] of [trakt.movies] and [trakt.tv]) as far as [sync.py] uses
    it: its [media_type], its [ids] and the value of [to_json()]. *)
Record Media : Type := mkMedia {
  media_type : string;
  ids : dict;
  to_json : dict
}.

(** Modelled from the spec: the entities a search constructs, each keeping
    the arguments of its constructor call. *)
Inductive entity : Type :=
  | Movie (kwargs : dict)
  | TVShow (kwargs : dict)
  | TVEpisode (show : option json) (kwargs : dict)
  | Person (kwargs : dict).

(** ** The HTTP collaborator

    Modelled from the spec: the [get] and [post] decorators of
    [trakt.core].  A decorated function is a generator.  Under [post] it
    yields a path and a body, which are sent.  Under [get] it yields a
    path, receives the decoded response and yields its result; an
    exception raised before the first [yield] leaves without a request.
    The world is the list of requests issued so far, oldest first. *)

Inductive method : Type := GET | POST.

Record request : Type := mkRequest {
  req_method : method;
  req_uri : string;
  req_body : option dict
}.

Abbreviation world := (list request).

Inductive generator (R : Type) : Type :=
  | Yield (uri : string) (k : list dict → result R)
  | Raised (e : exn).

Arguments Yield {R} uri k.
Arguments Raised {R} e.

Definition post (yielded : string * dict) (w : world) : world :=
  w ++ [mkRequest POST yielded.1 (Some yielded.2)].

Definition get {R} (http : string → result (list dict)) (g : generator R)
    (w : world) : result R * world :=
  match g with
  | Raised e => (Raise e, w)
  | Yield uri k => (http uri ≫= k, w ++ [mkRequest GET uri None])
  end.

(** ** comment, rate *)

(** [comment(media, comment_body, spoiler=False, review=False)] *)
Definition comment (media : Media) (comment_body : string)
    (spoiler review : bool) : string * dict :=
  let review :=
    if negb review && (200 <? String.length comment_body)%nat
    then true else review in
  let data : dict :=
    {[ "comment" := JStr comment_body;
       "spoiler" := JBool spoiler;
       "review" := JBool review ]} in
  let data := to_json media ∪ data in
  ("comments", data).

(** [add_to_watchlist(media)] and the other operations that post the
    media's JSON as it is. *)
Definition add_to_watchlist (media : Media) : string * dict :=
  ("sync/watchlist", to_json media).

Definition remove_from_history (media : Media) : string * dict :=
  ("sync/history/remove", to_json media).

Definition remove_from_watchlist (media : Media) : string * dict :=
  ("sync/watchlist/remove", to_json media).

Definition add_to_collection (media : Media) : string * dict :=
  ("sync/collection", to_json media).

Definition remove_from_collection (media : Media) : string * dict :=
  ("sync/collection/remove", to_json media).

Section utils.

(** [trakt.utils.timestamp], [slugify] and [extract_ids], not part of the
    source files. *)
Variable timestamp : datetime → string.
Variable slugify : string → string.
Variable extract_ids : dict → dict.

(** [rate(media, rating, rated_at=None)]; [now] is what [datetime.now()]
    reads at the call. *)
Definition rate (now : datetime) (media : Media) (rating : Q)
    (rated_at : option datetime) : string * dict :=
  let rated_at :=
    match rated_at with
    | None => now
    | Some t => t
    end in
  let data : dict :=
    {[ "rating" := JNum rating; "rated_at" := JStr (timestamp rated_at) ]} in
  let data := ids media ∪ data in
  ("sync/ratings", {[ media_type media := JList [JObj data] ]}).

(** [add_to_history(media, watched_at=None)]; [now] is what
    [datetime.now()] reads at the call. *)
Definition add_to_history (now : datetime) (media : Media)
    (watched_at : option datetime) : string * dict :=
  let watched_at :=
    match watched_at with
    | None => now
    | Some t => t
    end in
  let data : dict := {[ "watched_at" := JStr (timestamp watched_at) ]} in
  let data := ids media ∪ data in
  ("sync/history", {[ media_type media := JList [JObj data] ]}).

(** ** Search *)

Record SearchResult : Type := mkSearchResult {
  type : json;
  score : json;
  media : option entity
}.

(** The four discriminants [get_search_results] knows. *)
Definition recognized (ty : json) : bool :=
  str_eq ty "movie" || str_eq ty "show" || str_eq ty "episode"
  || str_eq ty "person".

(** [d[k]] *)
Definition getitem (d : dict) (k : string) : result json :=
  match d !! k with
  | Some v => Ok v
  | None => Raise KeyError
  end.

(** [**v]: the value must be a mapping. *)
Definition kwargs_of (v : json) : result dict :=
  match v with
  | JObj m => Ok m
  | _ => Raise TypeError
  end.

(** [show.get('title', None)] *)
Definition get_title (show : json) : result (option json) :=
  match show with
  | JObj m => Ok (m !! "title")
  | _ => Raise AttributeError
  end.

(** [show['title']] *)
Definition title_of (show : json) : result json :=
  match show with
  | JObj m => getitem m "title"
  | _ => Raise TypeError
  end.

(** Lines 156-172: one iteration of the loop of [get_search_results]. *)
Definition search_row (media_item : dict) : result SearchResult :=
  let media_item := extract_ids media_item in
  ty ← getitem media_item "type";
  sc ← getitem media_item "score";
  let result := mkSearchResult ty sc None in
  if str_eq ty "movie" then
    m ← getitem media_item "movie" ≫= kwargs_of;
    Ok (mkSearchResult (type result) (score result) (Some (Movie m)))
  else if str_eq ty "show" then
    m ← getitem media_item "show" ≫= kwargs_of;
    Ok (mkSearchResult (type result) (score result) (Some (TVShow m)))
  else if str_eq ty "episode" then
    show ← getitem media_item "show";
    t ← get_title show;
    m ← getitem media_item "episode" ≫= kwargs_of;
    Ok (mkSearchResult (type result) (score result) (Some (TVEpisode t m)))
  else if str_eq ty "person" then
    m ← getitem media_item "person" ≫= kwargs_of;
    Ok (mkSearchResult (type result) (score result) (Some (Person m)))
  else Ok result.

(** [get_search_results(query, search_type=None)] *)
Definition get_search_results (query : string)
    (search_type : option (list string)) : generator (list SearchResult) :=
  let search_type :=
    match search_type with
    | None => ["movie"; "show"; "episode"; "person"]
    | Some l => l
    end in
  let uri := "search/" +:+ join "," search_type +:+ "?query=" +:+ slugify query in
  Yield uri (λ data, mapM search_row data).

(** [search(query, search_type='movie', year=None)]: a single type is
    wrapped in a list, [year] is ignored and the media of the results are
    returned. *)
Definition search (query : string) (search_type : string + list string)
    (year : option Z) : generator (list (option entity)) :=
  let search_type :=
    match search_type with
    | inl s => [s]
    | inr l => l
    end in
  match get_search_results query (Some search_type) with
  | Yield uri k => Yield uri (λ data, results ← k data; Ok (map media results))
  | Raised e => Raised e
  end.

Definition valids : list string :=
  ["trakt-movie"; "trakt-show"; "trakt-episode"; "imdb"; "tmdb"; "tvdb";
   "tvrage"].

(** [extract_ids(d['episode'])], in place. *)
Definition extract_episode_ids (d : dict) : result dict :=
  ep ← getitem d "episode" ≫= kwargs_of;
  Ok (<["episode" := JObj (extract_ids ep)]> d).

(** Lines 197-211: one iteration of the second loop of [search_by_id];
    a row with none of the four keys contributes nothing. *)
Definition id_row (d : dict) : result (list entity) :=
  if bool_decide (is_Some (d !! "episode")) then
    show ← getitem d "show";
    d ← extract_episode_ids d;
    t ← title_of show;
    m ← getitem d "episode" ≫= kwargs_of;
    Ok [TVEpisode (Some t) m]
  else if bool_decide (is_Some (d !! "movie")) then
    m ← getitem d "movie" ≫= kwargs_of; Ok [Movie m]
  else if bool_decide (is_Some (d !! "show")) then
    m ← getitem d "show" ≫= kwargs_of; Ok [TVShow m]
  else if bool_decide (is_Some (d !! "person")) then
    m ← getitem d "person" ≫= kwargs_of; Ok [Person m]
  else Ok [].

(** [search_by_id(query, id_type='imdb')] *)
Definition search_by_id (query id_type : string) : generator (list entity) :=
  if bool_decide (id_type ∈ valids) then
    Yield ("search?id=" +:+ slugify query +:+ "&id_type=" +:+ id_type)
      (λ data,
         let data := map extract_ids data in
         results ← mapM id_row data;
         Ok (concat results))
  else Raised ValueError.

End utils.

(** ** Scrobbler *)

Module Scrobbler.

(** The attributes of a [Scrobbler].  The progress is a rational number:
    a float that is not a number, on which every comparison fails, has no
    counterpart here. *)
Record t : Type := mkScrobbler {
  progress : Q;
  version : string;
  media : Media;
  date : string
}.

(** [self.progress = p] *)
Definition set_progress (self : t) (p : Q) : t :=
  mkScrobbler p (version self) (media self) (date self).

Definition _post (self : t) (uri : string) : string * dict :=
  let payload : dict :=
    {[ "progress" := JNum (progress self);
       "app_version" := JStr (version self);
       "date" := JStr (date self) ]} in
  let payload := to_json (media self) ∪ payload in
  (uri, payload).

Definition start (self : t) (w : world) : world :=
  post (_post self "scrobble/start") w.

Definition pause (self : t) (w : world) : world :=
  post (_post self "scrobble/pause") w.

Definition stop (self : t) (w : world) : world :=
  post (_post self "scrobble/stop") w.

Definition finish (self : t) (w : world) : t * world :=
  let self :=
    if Qltb (progress self) 80 then set_progress self 100 else self in
  (self, stop self w).

Definition update (self : t) (p : Q) (w : world) : t * world :=
  let self := set_progress self p in
  (self, start self w).

Definition __init__ (media : Media) (p : Q) (app_version app_date : string)
    (w : world) : t * world :=
  let self := mkScrobbler p app_version media app_date in
  if Qltb 0 (progress self) then (self, start self w) else (self, w).

Definition __enter__ (self : t) (w : world) : t * world :=
  (self, start self w).

Definition __exit__ (self : t) (w : world) : t * world :=
  finish self w.

End Scrobbler.

End Sync.

(* ===================================================================== *)
(** * Sample responses                                                     *)
(* ===================================================================== *)

Module Examples.

Import Calendar.

(** Air dates as seconds since the epoch, for three timestamps. *)
Definition airs (first_aired : option string) : datetime :=
  match first_aired with
  | Some s =>
      if String.eqb s "2014-09-01T21:00:00.000Z" then 1409605200
      else if String.eqb s "2014-09-02T21:00:00.000Z" then 1409691600
      else 1409778000
  | None => 0
  end.

Definition pilot : TVEpisode := mkTVEpisode "Miniseries" 1 1 1400000000 ∅.
Definition finale : TVEpisode := mkTVEpisode "Miniseries" 1 2 1400600000 ∅.

(** A service that knows two seasons of one show, a single season of
    another and nothing else. *)
Definition known (show_title : string) (show_data : dict) : list TVSeason :=
  if String.eqb show_title "Two Seasons" then [mkTVSeason 1 []; mkTVSeason 2 []]
  else if String.eqb show_title "Miniseries" then [mkTVSeason 1 [pilot; finale]]
  else [].

(** A special (season 0) of a show of which only season 1 is known. *)
Definition special : item :=
  mkItem "Miniseries" {[ "year" := JNum 2014 ]} 0 1
    {[ "title" := JStr "Behind the Scenes" ]}
    (Some "2014-09-01T21:00:00.000Z").

Definition late : item :=
  mkItem "Two Seasons" ∅ 2 1 ∅ (Some "2014-09-02T21:00:00.000Z").
Definition early : item :=
  mkItem "Two Seasons" ∅ 1 7 ∅ (Some "2014-09-01T21:00:00.000Z").
Definition late_too : item :=
  mkItem "Two Seasons" ∅ 1 8 ∅ (Some "2014-09-02T21:00:00.000Z").
Definition unknown : item :=
  mkItem "Nobody Knows" ∅ 1 1 ∅ (Some "2014-09-01T21:00:00.000Z").

Definition week : list item := [late; early; late_too; unknown].

Definition kept_of (it : item) : TVShow :=
  mkTVShow (show_title it) "sodiafagiaugaiugh" (show_data it)
    [mkTVSeason (episode_season it) [item_episode airs known it]].

Definition the_matrix : Sync.Media :=
  Sync.mkMedia "movies"
    {[ "ids" := JObj {[ "trakt" := JNum 481; "imdb" := JStr "tt0133093" ]} ]}
    {[ "movies" := JList [JObj {[ "title" := JStr "The Matrix" ]}] ]}.

(** A text of 201 characters. *)
Definition long_text : string := string_of_list_ascii (repeat "a"%char 201).

Definition iso (t : datetime) : string :=
  if (t =? 1409605200)%Z then "2014-09-01T21:00:00.000Z" else "1970-01-01T00:00:00.000Z".

(** [extract_ids] of [trakt.utils]: the entries of the inner [ids] object
    move up into the object itself. *)
Definition lift_ids (d : dict) : dict :=
  match d !! "ids" with
  | Some (JObj inner) => inner ∪ delete "ids" d
  | _ => delete "ids" d
  end.

Definition rows : list dict :=
  [ {[ "type" := JStr "movie"; "score" := JNum 26.5;
       "movie" := JObj {[ "title" := JStr "The Matrix" ]} ]};
    {[ "type" := JStr "list"; "score" := JNum 3;
       "list" := JObj {[ "name" := JStr "Favourites" ]} ]} ].

Definition session : Sync.Scrobbler.t :=
  Sync.Scrobbler.mkScrobbler 50 "1.0" the_matrix "2014-09-01".

Definition releases : list MovieCalendar.movie_item :=
  [MovieCalendar.mkMovieItem (Some {[ "title" := JStr "B" ]}) (Some "2014-08-03");
   MovieCalendar.mkMovieItem None (Some "2014-08-01");
   MovieCalendar.mkMovieItem (Some {[ "title" := JStr "C" ]}) (Some "2014-08-03")].

End Examples.

(* ===================================================================== *)
(** * The calendar object                                                  *)
(* ===================================================================== *)

Module CalendarObject.

Import Sync.

(** [l[key]] for an integer key: a negative key counts from the end, a key
    out of range is an [IndexError]. *)
Definition list_getitem {A} (l : list A) (key : Z) : result A :=
  let i := if (key <? 0)%Z then (key + Z.of_nat (length l))%Z else key in
  if (i <? 0)%Z then Raise IndexError
  else
    match l !! Z.to_nat i with
    | Some x => Ok x
    | None => Raise IndexError
    end.

(** The attributes of a [Calendar]: [date], [days] and [_calendar]. *)
Record t (Entry : Type) : Type := mkCalendar {
  date : string;
  days : Z;
  _calendar : list Entry
}.

Arguments mkCalendar {Entry} date days _calendar.
Arguments date {Entry} self : rename.
Arguments days {Entry} self : rename.
Arguments _calendar {Entry} self : rename.

Section calendar.
Context {Row Entry : Type}.

(** What a class of calendars fixes: its [url] and its [_build]. *)
Variable url : string.
Variable _build : list Row → result (list Entry).

(** [trakt.utils.now()] at the call: today, as the service writes a day. *)
Variable now : string.

(** [ext]: ['/'.join([self.url, str(self.date), str(self.days)])] *)
Definition ext (self : t Entry) : string :=
  join "/" [url; date self; pretty (days self)].

(** [_get], under the [get] decorator: the path is requested and the
    response is handed to [_build]; the generator then ends. *)
Definition _get (http : string → result (list Row)) (self : t Entry)
    (w : world) : result (t Entry) * world :=
  (data ← http (ext self);
   calendar ← _build data;
   Ok (mkCalendar (date self) (days self) calendar),
   w ++ [mkRequest GET (ext self) None]).

(** [date or now()]: no date and the empty date give today. *)
Definition date_or_now (date : option string) : string :=
  match date with
  | Some d => if String.eqb d "" then now else d
  | None => now
  end.

(** [__init__(self, date=None, days=7)] *)
Definition __init__ (http : string → result (list Row))
    (date : option string) (days : Z) (w : world)
    : result (t Entry) * world :=
  let self := mkCalendar (date_or_now date) days [] in
  _get http self w.

Definition __getitem__ (self : t Entry) (key : Z) : result Entry :=
  list_getitem (_calendar self) key.

Definition __iter__ (self : t Entry) : list Entry := _calendar self.

Definition __len__ (self : t Entry) : nat := length (_calendar self).

End calendar.

End CalendarObject.

(* ===================================================================== *)
(** * Rows of a TV calendar response                                       *)
(* ===================================================================== *)

Module CalendarRows.

Import Calendar.

Section rows.
Variable airs_date : option string → datetime.
Variable known_seasons : string → dict → list TVSeason.

(** The entry of a row with a match: the show of the row with the season
    of the episode alone, which holds the episode alone. *)
Definition pruned (it : item) : TVShow :=
  mkTVShow (show_title it) "sodiafagiaugaiugh" (show_data it)
    [mkTVSeason (episode_season it)
       [mkTVEpisode (show_title it) (episode_season it) (episode_number it)
          (airs_date (first_aired it)) (episode_data it)]].

(** The rows on which the sort key of line 107 fails: no match, and a
    show whose one season has no episode. *)
Definition stuck (it : item) : Prop :=
  has_match known_seasons it = false ∧
  ∃ s, known_seasons (show_title it) (show_data it) = [s] ∧ _episodes s = [].

End rows.

End CalendarRows.

(* ===================================================================== *)
(** * More sample data                                                     *)
(* ===================================================================== *)

Module Samples.

(** A response in which every row has a season of its show. *)
Definition matched_week : list Calendar.item :=
  [Examples.late; Examples.early; Examples.late_too].

(** An episode as a search by id returns it, with the show it is of. *)
Definition episode_row : dict :=
  {[ "episode" := JObj {[ "title" := JStr "Pilot";
                          "ids" := JObj {[ "trakt" := JNum 73640 ]} ]};
     "show" := JObj {[ "title" := JStr "Breaking Bad" ]} ]}.

(** A row of a type the search does not know. *)
Definition list_row : dict :=
  {[ "type" := JStr "list"; "score" := JNum 3;
     "list" := JObj {[ "name" := JStr "Favourites" ]} ]}.

Definition movie_row : dict :=
  {[ "type" := JStr "movie"; "score" := JNum 26.5;
     "movie" := JObj {[ "title" := JStr "The Matrix" ]} ]}.

Definition tv_http (path : string) : result (list Calendar.item) :=
  Ok Examples.week.

(** A service that knows one season of every show, and no episode of
    it. *)
Definition known_bare (show_title : string) (show_data : dict)
  : list Calendar.TVSeason :=
  [Calendar.mkTVSeason 1 []].

End Samples.

(* ===================================================================== *)
(** * Facts about the runtime                                              *)
(* ===================================================================== *)

Module PyFacts.

Lemma bind_Ok {A B} (r : result A) (f : A → result B) (b : B) :
  r ≫= f = Ok b → ∃ a, r = Ok a ∧ f a = Ok b.
Proof. destruct r as [a|e]; simpl; [eauto | discriminate]. Qed.

Ltac inv_bind H :=
  let a := fresh "a" in
  let Ha := fresh "Ha" in
  apply bind_Ok in H; destruct H as (a & Ha & H).

Lemma Qltb_lt (x y : Q) : Qltb x y = true ↔ (x < y)%Q.
Proof.
  unfold Qltb. rewrite negb_true_iff, <- not_true_iff_false, Qle_bool_iff.
  split; [apply Qnot_le_lt | apply Qlt_not_le].
Qed.

Lemma mapM_decorate {A K} (key : A → result K) (l : list A) keyed :
  mapM (decorate key) l = Ok keyed →
  map snd keyed = l ∧ Forall (λ p, key p.2 = Ok p.1) keyed.
Proof.
  revert keyed. induction l as [|x l IH]; intros keyed H; simpl in H.
  - injection H as <-. split; constructor.
  - inv_bind H. inv_bind H. injection H as <-.
    unfold decorate in Ha. inv_bind Ha. injection Ha as <-.
    destruct (IH _ Ha0) as [IH1 IH2]. split; simpl.
    + by rewrite IH1.
    + by constructor.
Qed.

Lemma mapM_decorate_Ok {A K} (P : K → Prop) (key : A → result K) (l : list A) :
  Forall (λ x, ∃ k, key x = Ok k ∧ P k) l →
  ∃ keyed, mapM (decorate key) l = Ok keyed ∧ Forall (λ p, P p.1) keyed.
Proof.
  induction 1 as [|x l (k & Hk & HP) _ (keyed & IH & HF)].
  { exists []. split; [done | constructor]. }
  exists ((k, x) :: keyed). split; [|by constructor].
  change (mapM (decorate key) (x :: l))
    with (decorate key x ≫= λ y, mapM (decorate key) l ≫= λ r, Ok (y :: r)).
  assert (decorate key x = Ok (k, x)) as -> by (unfold decorate; by rewrite Hk).
  simpl. by rewrite IH.
Qed.

Section sort_facts.
Context {A K : Type} `{EqDecision K}.
Variable lt : K → K → result bool.
Variable le : K → K → Prop.
Hypothesis lt_irrefl : ∀ a, lt a a ≠ Ok true.
Hypothesis lt_true : ∀ a b, lt a b = Ok true → le a b.
Hypothesis lt_false : ∀ a b, lt a b = Ok false → le b a.

Lemma insert_perm kx (x : A) l r :
  insert lt kx x l = Ok r → r ≡ₚ (kx, x) :: l.
Proof.
  revert r. induction l as [|[ky y] l IH]; intros r H; simpl in H.
  - by injection H as <-.
  - inv_bind H. destruct a.
    + inv_bind H. injection H as <-.
      rewrite (IH _ Ha0). apply Permutation_swap.
    + by injection H as <-.
Qed.

Lemma insert_sorted kx (x : A) l r :
  Sorted (key_le le) l → insert lt kx x l = Ok r → Sorted (key_le le) r.
Proof.
  revert r. induction l as [|[ky y] l IH]; intros r Hs H; simpl in H.
  - injection H as <-. by repeat constructor.
  - inv_bind H. destruct a.
    + inv_bind H. injection H as <-.
      apply Sorted_inv in Hs as [Hs Hhd]. constructor; [by eapply IH|].
      destruct l as [|[kz z] l]; simpl in Ha0.
      * injection Ha0 as <-. constructor. by apply lt_true.
      * destruct (lt kz kx) as [[]|] eqn:E; simpl in Ha0; [| |done].
        -- destruct (insert lt kx x l); simpl in Ha0; [|done].
           injection Ha0 as <-. constructor. by apply HdRel_inv in Hhd.
        -- injection Ha0 as <-. constructor. by apply lt_true.
    + injection H as <-. constructor; [done|]. constructor. by apply lt_false.
Qed.

Lemma insert_stable kx (x : A) l r k :
  insert lt kx x l = Ok r →
  filter (λ p, p.1 = k) r = filter (λ p, p.1 = k) ((kx, x) :: l).
Proof.
  revert r. induction l as [|[ky y] l IH]; intros r H; simpl in H.
  - by injection H as <-.
  - inv_bind H. destruct a.
    + inv_bind H. injection H as <-.
      rewrite filter_cons, (IH _ Ha0), !filter_cons. simpl.
      repeat case_decide; try done. subst. by destruct (lt_irrefl k).
    + by injection H as <-.
Qed.

Lemma sort_perm (l r : list (K * A)) : sort lt l = Ok r → r ≡ₚ l.
Proof.
  revert r. induction l as [|[kx x] l IH]; intros r H; simpl in H.
  - by injection H as <-.
  - inv_bind H. rewrite (insert_perm _ _ _ _ H). by rewrite (IH _ Ha).
Qed.

Lemma sort_sorted (l r : list (K * A)) : sort lt l = Ok r → Sorted (key_le le) r.
Proof.
  revert r. induction l as [|[kx x] l IH]; intros r H; simpl in H.
  - injection H as <-. constructor.
  - inv_bind H. eapply insert_sorted; [by apply IH | exact H].
Qed.

Lemma sort_stable (l r : list (K * A)) k :
  sort lt l = Ok r → filter (λ p, p.1 = k) r = filter (λ p, p.1 = k) l.
Proof.
  revert r. induction l as [|[kx x] l IH]; intros r H; simpl in H.
  - by injection H as <-.
  - inv_bind H. rewrite (insert_stable _ _ _ _ _ H), !filter_cons.
    by rewrite (IH _ Ha).
Qed.

Lemma undecorate_sorted (key : A → result K) (s : list (K * A)) :
  Forall (λ p, key p.2 = Ok p.1) s →
  Sorted (key_le le) s → Sorted (by_key le key) (map snd s).
Proof.
  induction s as [|[kx x] s IH]; intros Hk Hs; simpl; [constructor|].
  apply Forall_cons in Hk as [Hx Hk]. apply Sorted_inv in Hs as [Hs Hhd].
  constructor; [by apply IH|].
  destruct s as [|[ky y] s]; simpl; constructor.
  apply Forall_cons in Hk as [Hy _]. apply HdRel_inv in Hhd.
  by exists kx, ky.
Qed.

Lemma undecorate_filter (key : A → result K) (s : list (K * A)) k :
  Forall (λ p, key p.2 = Ok p.1) s →
  map snd (filter (λ p, p.1 = k) s) = filter (λ a, key a = Ok k) (map snd s).
Proof.
  induction s as [|[kx x] s IH]; intros Hk; simpl; [done|].
  apply Forall_cons in Hk as [Hx Hk]. simpl in Hx.
  rewrite !filter_cons. simpl. rewrite <- (IH Hk).
  repeat case_decide; simpl; try done; subst.
  - rewrite Hx in *. congruence.
  - rewrite Hx in *. congruence.
Qed.

Lemma sorted_perm key (l out : list A) : sorted lt key l = Ok out → out ≡ₚ l.
Proof.
  unfold sorted. intros H. inv_bind H. inv_bind H. injection H as <-.
  apply mapM_decorate in Ha as [<- _].
  by apply fmap_Permutation, sort_perm.
Qed.

Lemma sorted_length key (l out : list A) :
  sorted lt key l = Ok out → length out = length l.
Proof. intros H. by apply Permutation_length, sorted_perm with key. Qed.

Lemma sorted_Sorted key (l out : list A) :
  sorted lt key l = Ok out → Sorted (by_key le key) out.
Proof.
  unfold sorted. intros H. inv_bind H. inv_bind H. injection H as <-.
  pose proof (sort_perm _ _ Ha0) as Hp.
  apply mapM_decorate in Ha as [_ Hk].
  apply undecorate_sorted; [by rewrite Hp | by eapply sort_sorted].
Qed.

Lemma sorted_stable key (l out : list A) k :
  sorted lt key l = Ok out →
  filter (λ a, key a = Ok k) out = filter (λ a, key a = Ok k) l.
Proof.
  unfold sorted. intros H. inv_bind H. inv_bind H. injection H as <-.
  pose proof (sort_perm _ _ Ha0) as Hp.
  apply mapM_decorate in Ha as [<- Hk].
  rewrite <- !undecorate_filter; [|done|].
  - by rewrite (sort_stable _ _ k Ha0).
  - by rewrite Hp.
Qed.

End sort_facts.

Section sort_returns.
Context {A K : Type}.
Variable lt : K → K → result bool.
Variable P : K → Prop.
Hypothesis lt_defined : ∀ a b, P a → P b → ∃ c, lt a b = Ok c.

Lemma insert_returns kx (x : A) l :
  P kx → Forall (λ p, P p.1) l → ∃ r, insert lt kx x l = Ok r.
Proof.
  intros Hx. induction 1 as [|[ky y] l Hy _ [r IH]]; simpl; [eauto|].
  destruct (lt_defined ky kx Hy Hx) as [[] ->]; simpl; [|eauto].
  rewrite IH. simpl. eauto.
Qed.

Lemma sort_returns (l : list (K * A)) :
  Forall (λ p, P p.1) l → ∃ r, sort lt l = Ok r.
Proof.
  induction 1 as [|[kx x] l Hx Hl [s IH]]; simpl; [eauto|].
  rewrite IH. simpl. apply insert_returns; [done|].
  by rewrite (sort_perm _ _ _ IH).
Qed.

Lemma sorted_returns key (l : list A) :
  Forall (λ x, ∃ k, key x = Ok k ∧ P k) l → ∃ out, sorted lt key l = Ok out.
Proof.
  intros H. apply mapM_decorate_Ok in H as (keyed & Hk & HP).
  destruct (sort_returns keyed HP) as [s Hs].
  unfold sorted. rewrite Hk. simpl. rewrite Hs. simpl. eauto.
Qed.

End sort_returns.

(** ** The two key orders *)

Lemma datetime_lt_irrefl a : datetime_lt a a ≠ Ok true.
Proof. unfold datetime_lt. rewrite Z.ltb_irrefl. discriminate. Qed.

Lemma datetime_lt_true a b : datetime_lt a b = Ok true → (a ≤ b)%Z.
Proof. unfold datetime_lt. intros [= H]. apply Z.ltb_lt in H. lia. Qed.

Lemma datetime_lt_false a b : datetime_lt a b = Ok false → (b ≤ a)%Z.
Proof. unfold datetime_lt. intros [= H]. apply Z.ltb_ge in H. lia. Qed.

Lemma string_compare_refl s : String.compare s s = Eq.
Proof.
  pose proof (String.compare_antisym s s) as H.
  destruct (String.compare s s); simpl in H; congruence.
Qed.

Lemma opt_str_lt_irrefl a : opt_str_lt a a ≠ Ok true.
Proof.
  destruct a as [s|]; simpl; [|discriminate].
  unfold String.ltb. rewrite string_compare_refl. discriminate.
Qed.

Lemma opt_str_lt_true a b : opt_str_lt a b = Ok true → opt_str_le a b.
Proof.
  destruct a as [s|], b as [t|]; simpl; try discriminate.
  intros [= H]. exists s, t. repeat split.
  unfold String.ltb in H. unfold String.leb.
  by destruct (String.compare s t).
Qed.

Lemma opt_str_lt_false a b : opt_str_lt a b = Ok false → opt_str_le b a.
Proof.
  destruct a as [s|], b as [t|]; simpl; try discriminate.
  intros [= H]. exists t, s. repeat split.
  unfold String.ltb in H. unfold String.leb.
  rewrite String.compare_antisym. by destruct (String.compare s t).
Qed.

Lemma opt_str_lt_defined a b :
  is_Some a → is_Some b → ∃ c, opt_str_lt a b = Ok c.
Proof. intros [s ->] [t ->]. simpl. eauto. Qed.

End PyFacts.

(* ===================================================================== *)
(** * The TV calendar                                                      *)
(* ===================================================================== *)

Module CalendarFacts.

Import PyFacts Calendar.

Section tv.
Variable airs_date : option string → datetime.
Variable known_seasons : string → dict → list TVSeason.

#[local] Abbreviation build_step := (build_step airs_date known_seasons).
#[local] Abbreviation keep := (keep airs_date known_seasons).
#[local] Abbreviation kept_shows := (kept_shows airs_date known_seasons).
#[local] Abbreviation item_show := (item_show known_seasons).
#[local] Abbreviation item_episode := (item_episode airs_date known_seasons).
#[local] Abbreviation has_match := (has_match known_seasons).
#[local] Abbreviation _build := (_build airs_date known_seasons).

Lemma fold_build_step_Raise data e :
  fold_left build_step data (Raise e) = Raise e.
Proof. induction data as [|it data IH]; simpl; [done | exact IH]. Qed.

(** One iteration on a row whose show fragment has no [slug] field. *)
Lemma build_step_keep calendar it :
  show_data it !! "slug" = None →
  build_step (Ok calendar) it
  = Ok (calendar ++ match keep it with Some show => [show] | None => [] end).
Proof.
  intros Hs. unfold Calendar.build_step, new_TVShow, Calendar.keep. simpl.
  rewrite Hs. simpl.
  change (mkTVShow (show_title it) "sodiafagiaugaiugh" (show_data it)
            (known_seasons (show_title it) (show_data it)))
    with (item_show it).
  change (mkTVEpisode (show_title it) (episode_season it) (episode_number it)
            (airs_date (first_aired it)) (episode_data it))
    with (item_episode it).
  destruct (length _ =? 1)%nat; [done | by rewrite app_nil_r].
Qed.

(** When the loop ends it has appended the kept shows in input order. *)
Lemma fold_build_step data calendar res :
  fold_left build_step data (Ok calendar) = Ok res →
  res = calendar ++ kept_shows data.
Proof.
  revert calendar.
  induction data as [|it data IH]; intros calendar; cbn [fold_left].
  - intros [= <-]. by rewrite app_nil_r.
  - destruct (show_data it !! "slug") as [v|] eqn:Hs.
    + assert (build_step (Ok calendar) it = Raise TypeError) as ->.
      { unfold Calendar.build_step, new_TVShow. simpl. by rewrite Hs. }
      by rewrite fold_build_step_Raise.
    + rewrite (build_step_keep _ _ Hs). intros H. rewrite (IH _ H).
      unfold Calendar.kept_shows. simpl.
      destruct (keep it); simpl; by rewrite <- app_assoc.
Qed.

(** The loop ends when no show fragment has a [slug] field of its own. *)
Lemma fold_build_step_returns data calendar :
  Forall (λ it, show_data it !! "slug" = None) data →
  fold_left build_step data (Ok calendar) = Ok (calendar ++ kept_shows data).
Proof.
  intros H. revert calendar.
  induction H as [|it data Hs _ IH]; intros calendar; cbn [fold_left].
  - by rewrite app_nil_r.
  - rewrite (build_step_keep _ _ Hs), IH. unfold Calendar.kept_shows. simpl.
    destruct (keep it); simpl; by rewrite <- app_assoc.
Qed.

(** A calendar that was built is the sorted list of the kept shows. *)
Lemma _build_Ok data cal :
  _build data = Ok cal →
  sorted datetime_lt sort_key (kept_shows data) = Ok cal.
Proof.
  unfold Calendar._build. intros H. inv_bind H.
  apply fold_build_step in Ha. simpl in Ha. by subst a.
Qed.

Lemma find_season_existsb seasons episode :
  find_season seasons episode =
  if existsb (λ s, season s =? ep_season episode)%Z seasons
  then Some (mkTVSeason (ep_season episode) [episode]) else None.
Proof.
  induction seasons as [|s rest IH]; simpl; [done|].
  destruct (season s =? ep_season episode)%Z eqn:E; simpl; [|done].
  apply Z.eqb_eq in E. by rewrite E.
Qed.

(** A row with a match is kept, pruned to the season of its episode, which
    holds that episode alone. *)
Lemma keep_match it :
  has_match it = true →
  keep it = Some (mkTVShow (show_title it) "sodiafagiaugaiugh" (show_data it)
                    [mkTVSeason (episode_season it) [item_episode it]]).
Proof.
  intros H. unfold Calendar.keep, prune. rewrite find_season_existsb.
  unfold Calendar.has_match in H. simpl. by rewrite H.
Qed.

(** A row without a match is dropped unless its show has exactly one
    season, in which case the show is kept as it was constructed. *)
Lemma keep_no_match it :
  has_match it = false →
  keep it =
  if (length (known_seasons (show_title it) (show_data it)) =? 1)%nat
  then Some (item_show it) else None.
Proof.
  intros H. unfold Calendar.keep, prune. rewrite find_season_existsb.
  unfold Calendar.has_match in H. simpl. by rewrite H.
Qed.

(** The rows the loop drops: no match, and not exactly one season. *)
Lemma keep_None_iff it :
  keep it = None ↔
  has_match it = false ∧
  length (known_seasons (show_title it) (show_data it)) ≠ 1%nat.
Proof.
  destruct (has_match it) eqn:E.
  - rewrite (keep_match _ E). split; [done | by intros [? _]].
  - rewrite (keep_no_match _ E).
    destruct (length _ =? 1)%nat eqn:E1.
    + apply Nat.eqb_eq in E1. split; [done | by intros [_ ?]].
    + apply Nat.eqb_neq in E1. done.
Qed.

Lemma keep_one_season it show :
  keep it = Some show → length (_seasons show) = 1%nat.
Proof.
  unfold Calendar.keep. destruct (length _ =? 1)%nat eqn:E; [|done].
  intros [= <-]. by apply Nat.eqb_eq.
Qed.

(** The number of kept shows: the rows less the dropped ones. *)
Lemma length_kept_shows data :
  length (kept_shows data)
  = (length data - length (filter (λ it, keep it = None) data))%nat.
Proof.
  unfold Calendar.kept_shows.
  induction data as [|it data IH]; simpl; [done|].
  rewrite filter_cons. pose proof (length_filter (λ it, keep it = None) data).
  destruct (keep it) eqn:E; case_decide; try done;
    unfold omap in *; simpl in *; lia.
Qed.

(** The sort key of a show kept for a match is the air date of the row. *)
Lemma sort_key_match it show :
  has_match it = true → keep it = Some show →
  sort_key show = Ok (airs_date (first_aired it)).
Proof. intros H. rewrite (keep_match _ H). by intros [= <-]. Qed.

(** [_build] returns when no show fragment has a [slug] field of its own
    and the first season of every kept show has an episode, in particular
    when every row has a match. *)
Lemma _build_returns data :
  Forall (λ it, show_data it !! "slug" = None) data →
  Forall (λ x, ∃ t, sort_key x = Ok t) (kept_shows data) →
  ∃ cal, _build data = Ok cal.
Proof.
  intros Hs H. unfold Calendar._build.
  rewrite (fold_build_step_returns _ _ Hs). simpl.
  apply (sorted_returns datetime_lt (λ _, True)).
  - intros a b _ _. unfold datetime_lt. eauto.
  - eapply Forall_impl; [exact H|]. intros x [t Ht]. eauto.
Qed.

Lemma _build_returns_matched data :
  Forall (λ it, show_data it !! "slug" = None) data →
  Forall (λ it, has_match it = true) data → ∃ cal, _build data = Ok cal.
Proof.
  intros Hs H. apply _build_returns; [exact Hs|]. clear Hs.
  unfold Calendar.kept_shows.
  induction H as [|it data Hit _ IH]; simpl; [constructor|].
  rewrite (keep_match _ Hit). simpl. constructor; [|exact IH]. eauto.
Qed.

(** The length of the calendar: the rows less the dropped ones, which are
    the rows without a match whose show does not have exactly one
    season. *)
Lemma _build_length data cal :
  _build data = Ok cal →
  length cal
  = (length data - length (filter (λ it, keep it = None) data))%nat.
Proof.
  intros H. apply _build_Ok in H.
  rewrite <- length_kept_shows. by eapply sorted_length.
Qed.

(** C3. Whenever [_build] returns, the calendar is the list of kept shows
    rearranged so that the keys [seasons[0].episodes[0].airs_at] ascend,
    and the shows with one and the same key are in the order in which the
    loop kept them, which is the order of their rows in the response. *)
Theorem tv_calendar_sorted_stable data cal :
  _build data = Ok cal →
  Sorted (by_key Z.le sort_key) cal ∧
  cal ≡ₚ kept_shows data ∧
  ∀ t : datetime,
    filter (λ x, sort_key x = Ok t) cal =
    filter (λ x, sort_key x = Ok t) (kept_shows data).
Proof.
  intros H. apply _build_Ok in H.
  split; [|split].
  - eapply sorted_Sorted; [| |exact H].
    + apply datetime_lt_true.
    + apply datetime_lt_false.
  - eapply sorted_perm, H.
  - intros t. eapply sorted_stable; [|exact H]. apply datetime_lt_irrefl.
Qed.

End tv.

Lemma tv_calendar_sorted_stable_witness :
  _build Examples.airs Examples.known Examples.week
  = Ok (Examples.kept_of <$> [Examples.early; Examples.late; Examples.late_too]) ∧
  (Sorted (by_key Z.le sort_key)
     (Examples.kept_of <$> [Examples.early; Examples.late; Examples.late_too]) ∧
   (Examples.kept_of <$> [Examples.early; Examples.late; Examples.late_too])
     ≡ₚ kept_shows Examples.airs Examples.known Examples.week ∧
   ∀ t : datetime,
     filter (λ x, sort_key x = Ok t)
       (Examples.kept_of <$> [Examples.early; Examples.late; Examples.late_too]) =
     filter (λ x, sort_key x = Ok t)
       (kept_shows Examples.airs Examples.known Examples.week)).
Proof.
  split; [reflexivity|].
  apply (tv_calendar_sorted_stable Examples.airs Examples.known Examples.week).
  reflexivity.
Defined.

(** C1. A response of one row whose episode is of season 0 while the show
    has season 1 alone: the row has no match, so one row of one is
    unmatched, and the calendar still has one entry, the show as it was
    constructed. *)
Theorem tv_unmatched_single_season_kept :
  has_match Examples.known Examples.special = false ∧
  unmatched Examples.known [Examples.special] = 1%nat ∧
  (length [Examples.special]
   - unmatched Examples.known [Examples.special] = 0)%nat ∧
  _build Examples.airs Examples.known [Examples.special]
  = Ok [item_show Examples.known Examples.special] ∧
  length [item_show Examples.known Examples.special] = 1%nat.
Proof. repeat apply conj; reflexivity. Qed.

(** C2. For the same response the one retained show has one season, and
    that season holds the two episodes the service knows, neither of them
    the episode of the row. *)
Theorem tv_unmatched_single_season_episodes :
  _build Examples.airs Examples.known [Examples.special]
  = Ok [item_show Examples.known Examples.special] ∧
  _seasons (item_show Examples.known Examples.special)
  = [mkTVSeason 1 [Examples.pilot; Examples.finale]] ∧
  length [Examples.pilot; Examples.finale] = 2%nat ∧
  item_episode Examples.airs Examples.known Examples.special ≠ Examples.pilot ∧
  item_episode Examples.airs Examples.known Examples.special ≠ Examples.finale.
Proof. repeat apply conj; try reflexivity; discriminate. Qed.

End CalendarFacts.

(* ===================================================================== *)
(** * The movie calendar                                                   *)
(* ===================================================================== *)

Module MovieCalendarFacts.

Import PyFacts MovieCalendar.

Lemma fold_movie_step_Raise data e :
  fold_left build_step data (Raise e) = Raise e.
Proof. induction data as [|row data IH]; simpl; [done | exact IH]. Qed.

(** When the loop ends it has appended one movie per row, in order. *)
Lemma fold_movie_step data acc res :
  fold_left build_step data (Ok acc) = Ok res →
  res = acc ++ map row_movie data.
Proof.
  revert acc. induction data as [|row data IH]; intros acc; simpl.
  - intros [= <-]. by rewrite app_nil_r.
  - unfold new_Movie.
    destruct (default ∅ (mi_movie row) !! "released"); simpl.
    + by rewrite fold_movie_step_Raise.
    + intros H. rewrite (IH _ H). by rewrite <- app_assoc.
Qed.

Lemma fold_movie_step_returns data acc :
  Forall (λ row, default ∅ (mi_movie row) !! "released" = None) data →
  fold_left build_step data (Ok acc) = Ok (acc ++ map row_movie data).
Proof.
  intros H. revert acc.
  induction H as [|row data Hrow _ IH]; intros acc; simpl.
  - by rewrite app_nil_r.
  - unfold new_Movie. rewrite Hrow. simpl. rewrite IH.
    by rewrite <- app_assoc.
Qed.

(** [MovieCalendar._build] returns when every row has a release date and
    no movie fragment has a [released] field of its own. *)
Lemma movie_build_returns data :
  Forall (λ row, is_Some (mi_released row) ∧
                 default ∅ (mi_movie row) !! "released" = None) data →
  ∃ cal, _build data = Ok cal.
Proof.
  intros H. unfold _build.
  rewrite (fold_movie_step_returns data []); simpl.
  - apply (sorted_returns opt_str_lt is_Some); [apply opt_str_lt_defined|].
    apply Forall_fmap. eapply Forall_impl; [exact H|].
    intros row [Hrel _]. exists (mi_released row). by split.
  - eapply Forall_impl; [exact H|]. by intros row [_ ?].
Qed.

(** A row without a release date is no obstacle on its own, but two rows
    cannot be compared when one of them has no release date. *)
Example movie_build_one_undated :
  _build [mkMovieItem None None] = Ok [mkMovie None ∅].
Proof. reflexivity. Qed.

Example movie_build_undated_among_two :
  _build [mkMovieItem None (Some "2014-08-01"); mkMovieItem None None]
  = Raise TypeError.
Proof. reflexivity. Qed.

(** C4. Whenever [MovieCalendar._build] returns, the calendar has as many
    entries as the response has rows, it consists of the movies of the
    rows, one per row, and neighbours are in ascending order of their
    release dates. *)
Theorem movie_calendar_complete_sorted data cal :
  _build data = Ok cal →
  length cal = length data ∧
  cal ≡ₚ map row_movie data ∧
  Sorted (by_key opt_str_le released_key) cal.
Proof.
  unfold _build. intros H. inv_bind H.
  apply fold_movie_step in Ha. simpl in Ha. subst a.
  pose proof (sorted_perm _ _ _ _ H) as Hp.
  split; [|split].
  - by rewrite Hp, length_map.
  - exact Hp.
  - eapply sorted_Sorted; [| |exact H].
    + apply opt_str_lt_true.
    + apply opt_str_lt_false.
Qed.

Lemma movie_calendar_complete_sorted_witness :
  _build Examples.releases
  = Ok [mkMovie (Some "2014-08-01") ∅;
        mkMovie (Some "2014-08-03") {[ "title" := JStr "B" ]};
        mkMovie (Some "2014-08-03") {[ "title" := JStr "C" ]}] ∧
  (length [mkMovie (Some "2014-08-01") ∅;
           mkMovie (Some "2014-08-03") {[ "title" := JStr "B" ]};
           mkMovie (Some "2014-08-03") {[ "title" := JStr "C" ]}]
   = length Examples.releases ∧
   [mkMovie (Some "2014-08-01") ∅;
    mkMovie (Some "2014-08-03") {[ "title" := JStr "B" ]};
    mkMovie (Some "2014-08-03") {[ "title" := JStr "C" ]}]
     ≡ₚ map row_movie Examples.releases ∧
   Sorted (by_key opt_str_le released_key)
     [mkMovie (Some "2014-08-01") ∅;
      mkMovie (Some "2014-08-03") {[ "title" := JStr "B" ]};
      mkMovie (Some "2014-08-03") {[ "title" := JStr "C" ]}]).
Proof.
  split; [reflexivity|].
  apply (movie_calendar_complete_sorted Examples.releases). reflexivity.
Defined.

End MovieCalendarFacts.

(* ===================================================================== *)
(** * Sync payloads, search and scrobbling                                 *)
(* ===================================================================== *)

Module SyncFacts.

Import PyFacts Sync.

(** ** comment *)

(** C6. Without the review flag, the payload of [comment] has
    [review=True] for a text of more than 200 characters and
    [review=False] otherwise, next to the text, the spoiler flag and every
    field of the media's JSON; the media's JSON is assumed not to use the
    keys [comment], [spoiler] and [review] itself. *)
Theorem comment_payload media comment_body spoiler :
  to_json media !! "comment" = None →
  to_json media !! "spoiler" = None →
  to_json media !! "review" = None →
  (comment media comment_body spoiler false).1 = "comments" ∧
  ((200 < String.length comment_body)%nat →
   (comment media comment_body spoiler false).2 !! "review"
   = Some (JBool true)) ∧
  ((String.length comment_body ≤ 200)%nat →
   (comment media comment_body spoiler false).2 !! "review"
   = Some (JBool false)) ∧
  (comment media comment_body spoiler false).2 !! "comment"
  = Some (JStr comment_body) ∧
  (comment media comment_body spoiler false).2 !! "spoiler"
  = Some (JBool spoiler) ∧
  ∀ k v, to_json media !! k = Some v →
         (comment media comment_body spoiler false).2 !! k = Some v.
Proof.
  intros Hc Hs Hr. unfold comment. simpl.
  split; [done|]. split; [|split; [|split; [|split]]].
  - intros Hlen. apply Nat.ltb_lt in Hlen. rewrite Hlen.
    rewrite lookup_union_r by done. by simplify_map_eq.
  - intros Hlen. apply Nat.ltb_ge in Hlen. rewrite Hlen.
    rewrite lookup_union_r by done. by simplify_map_eq.
  - rewrite lookup_union_r by done. by simplify_map_eq.
  - rewrite lookup_union_r by done. by simplify_map_eq.
  - intros k v Hk. by apply lookup_union_Some_l.
Qed.

Lemma comment_payload_witness :
  to_json Examples.the_matrix !! "comment" = None ∧
  to_json Examples.the_matrix !! "spoiler" = None ∧
  to_json Examples.the_matrix !! "review" = None ∧
  (200 < String.length Examples.long_text)%nat ∧
  (comment Examples.the_matrix Examples.long_text true false).2 !! "review"
  = Some (JBool true).
Proof.
  assert (200 < String.length Examples.long_text)%nat as Hlen
    by (vm_compute; lia).
  split; [reflexivity|]. split; [reflexivity|]. split; [reflexivity|].
  split; [exact Hlen|].
  destruct (comment_payload Examples.the_matrix Examples.long_text true)
    as (_ & Hlong & _); [reflexivity..|].
  exact (Hlong Hlen).
Defined.

(** [data.update(media.to_json())] lets the media's JSON win: a field of
    that JSON is in the payload whatever its key. *)
Lemma comment_media_fields_win media comment_body spoiler review k v :
  to_json media !! k = Some v →
  (comment media comment_body spoiler review).2 !! k = Some v.
Proof. intros Hk. unfold comment. simpl. by apply lookup_union_Some_l. Qed.

(** With the review flag set, the payload has [review=True] whatever the
    length of the text. *)
Lemma comment_review_kept media comment_body spoiler :
  to_json media !! "review" = None →
  (comment media comment_body spoiler true).2 !! "review" = Some (JBool true).
Proof.
  intros Hr. unfold comment. simpl.
  rewrite lookup_union_r by done. by simplify_map_eq.
Qed.

(** ** rate *)

(** C7. The payload of [rate] is a one-entry object, keyed by the media's
    type, holding the list of one object: the media's identifier fields
    together with the rating and the serialized timestamp; without
    [rated_at] the timestamp is that of the clock at the call.  The
    identifier fields are assumed not to use the keys [rating] and
    [rated_at] themselves. *)
Theorem rate_payload timestamp now media rating rated_at :
  ids media !! "rating" = None →
  ids media !! "rated_at" = None →
  ∃ data : dict,
    rate timestamp now media rating rated_at
    = ("sync/ratings", {[ media_type media := JList [JObj data] ]}) ∧
    (∀ k v, ids media !! k = Some v → data !! k = Some v) ∧
    data !! "rating" = Some (JNum rating) ∧
    data !! "rated_at" = Some (JStr (timestamp (default now rated_at))) ∧
    (rated_at = None → data !! "rated_at" = Some (JStr (timestamp now))) ∧
    ∀ k, k ≠ "rating" → k ≠ "rated_at" → data !! k = ids media !! k.
Proof.
  intros Hr Ht. eexists. split; [reflexivity|].
  split; [|split; [|split; [|split]]].
  - intros k v Hk. by apply lookup_union_Some_l.
  - rewrite lookup_union_r by done. by simplify_map_eq.
  - rewrite lookup_union_r by done. destruct rated_at; by simplify_map_eq.
  - intros ->. rewrite lookup_union_r by done. by simplify_map_eq.
  - intros k Hk1 Hk2. destruct (ids media !! k) as [v|] eqn:E.
    + by apply lookup_union_Some_l.
    + rewrite lookup_union_r by done. by simplify_map_eq.
Qed.

Lemma rate_payload_witness :
  ids Examples.the_matrix !! "rating" = None ∧
  ids Examples.the_matrix !! "rated_at" = None ∧
  ∃ data : dict,
    rate Examples.iso 1409605200 Examples.the_matrix 9 None
    = ("sync/ratings", {[ "movies" := JList [JObj data] ]}) ∧
    data !! "rated_at" = Some (JStr "2014-09-01T21:00:00.000Z").
Proof.
  split; [reflexivity|]. split; [reflexivity|].
  destruct (rate_payload Examples.iso 1409605200 Examples.the_matrix 9 None)
    as (data & Hrate & _ & _ & _ & Hnow & _); [reflexivity..|].
  exists data. split; [exact Hrate|]. by apply Hnow.
Defined.

(** ** Search *)

Lemma mapM_Forall2 {A B} (f : A → result B) (l : list A) (k : list B) :
  mapM f l = Ok k → Forall2 (λ x y, f x = Ok y) l k.
Proof.
  revert k. induction l as [|x l IH]; intros k H; simpl in H.
  - injection H as <-. constructor.
  - inv_bind H. inv_bind H. injection H as <-. constructor; [done|].
    by apply IH.
Qed.

Lemma mapM_no_raise {A B} (f : A → result B) (e : exn) (l : list A) :
  (∀ x, f x ≠ Raise e) → mapM f l ≠ Raise e.
Proof.
  intros Hf. induction l as [|x l IH]; [done|].
  change (mapM f (x :: l))
    with (f x ≫= λ y, mapM f l ≫= λ r, Ok (y :: r)).
  specialize (Hf x). destruct (f x) as [y|e']; simpl; [|intros [= ->]; by apply Hf].
  destruct (mapM f l) as [r|e']; simpl; [done | exact IH].
Qed.

(** An element that is mapped without an exception stands in the result
    between the results of the elements before and after it. *)
Lemma mapM_middle {A B} (f : A → result B) l1 x l2 y :
  f x = Ok y →
  mapM f (l1 ++ x :: l2)
  = mapM f l1 ≫= λ rs1, mapM f l2 ≫= λ rs2, Ok (rs1 ++ y :: rs2).
Proof.
  intros Hx. induction l1 as [|a l1 IH].
  - change (mapM f ([] ++ x :: l2))
      with (f x ≫= λ y, mapM f l2 ≫= λ r, Ok (y :: r)).
    by rewrite Hx.
  - change (mapM f ((a :: l1) ++ x :: l2))
      with (f a ≫= λ y, mapM f (l1 ++ x :: l2) ≫= λ r, Ok (y :: r)).
    change (mapM f (a :: l1))
      with (f a ≫= λ y, mapM f l1 ≫= λ r, Ok (y :: r)).
    rewrite IH. destruct (f a); simpl; [|done].
    destruct (mapM f l1); simpl; [|done].
    destruct (mapM f l2); simpl; done.
Qed.

Lemma mapM_returns {A B} (f : A → result B) l :
  Forall (λ x, ∃ y, f x = Ok y) l →
  ∃ k, mapM f l = Ok k ∧ length k = length l.
Proof.
  induction 1 as [|x l [y Hy] _ (k & Hk & Hlen)].
  - by exists [].
  - exists (y :: k).
    change (mapM f (x :: l))
      with (f x ≫= λ y, mapM f l ≫= λ r, Ok (y :: r)).
    rewrite Hy. simpl. rewrite Hk. simpl. by rewrite Hlen.
Qed.

Section search.
Variable slugify : string → string.
Variable extract_ids : dict → dict.

#[local] Abbreviation search_row := (search_row extract_ids).
#[local] Abbreviation get_search_results :=
  (get_search_results slugify extract_ids).
#[local] Abbreviation id_row := (id_row extract_ids).
#[local] Abbreviation search_by_id := (search_by_id slugify extract_ids).

(** A row of an unknown type that has a type and a score never raises. *)
Lemma search_row_unrecognized row ty sc :
  extract_ids row !! "type" = Some ty →
  extract_ids row !! "score" = Some sc →
  recognized ty = false →
  search_row row = Ok (mkSearchResult ty sc None).
Proof.
  intros Hty Hsc Hrec. unfold Sync.search_row, getitem.
  rewrite Hty, Hsc. simpl.
  unfold recognized in Hrec. rewrite !orb_false_iff in Hrec.
  destruct Hrec as [[[-> ->] ->] ->]. done.
Qed.

(** C9. [get_search_results] yields its request and returns what its
    walk over the response returns.  The walk of an empty response returns
    no result.  A row whose type is none of the four known ones, with a
    type and a score, never raises: wherever it stands in a response, the
    walk returns the results of the rows before it, then a result with the
    type and the score of the row and no media, then the results of the
    rows after it, and raises only if the walk of those other rows does.
    The walk returns whenever every row can be parsed, and whenever it
    returns, it returns one result per row. *)
Theorem search_results_one_per_row query search_type :
  ∃ uri k,
    get_search_results query search_type = Yield uri k ∧
    (∀ http w data,
       http uri = Ok data →
       (get http (get_search_results query search_type) w).1 = k data) ∧
    k [] = Ok [] ∧
    (∀ before row after ty sc,
       extract_ids row !! "type" = Some ty →
       extract_ids row !! "score" = Some sc →
       recognized ty = false →
       k (before ++ row :: after)
       = k before ≫= λ rs1, k after ≫= λ rs2,
           Ok (rs1 ++ mkSearchResult ty sc None :: rs2)) ∧
    (∀ data,
       Forall (λ row, ∃ r, search_row row = Ok r) data →
       ∃ results, k data = Ok results ∧ length results = length data) ∧
    (∀ row ty sc,
       extract_ids row !! "type" = Some ty →
       extract_ids row !! "score" = Some sc →
       recognized ty = false →
       search_row row = Ok (mkSearchResult ty sc None)) ∧
    ∀ data results,
      k data = Ok results →
      length results = length data ∧
      ∀ i row ty sc,
        data !! i = Some row →
        extract_ids row !! "type" = Some ty →
        extract_ids row !! "score" = Some sc →
        recognized ty = false →
        results !! i = Some (mkSearchResult ty sc None).
Proof.
  eexists _, _. split; [reflexivity|]. split.
  { intros http w data Hd. simpl. by rewrite Hd. }
  split; [reflexivity|]. split.
  { intros before row after ty sc Hty Hsc Hrec.
    apply mapM_middle. by apply search_row_unrecognized. }
  split; [apply mapM_returns|]. split.
  { apply search_row_unrecognized. }
  intros data results H. apply mapM_Forall2 in H.
  split; [symmetry; by eapply Forall2_length|].
  intros i row ty sc Hrow Hty Hsc Hrec.
  destruct (Forall2_lookup_l _ _ _ _ _ H Hrow) as (r & Hr & Hrow').
  rewrite (search_row_unrecognized _ _ _ Hty Hsc Hrec) in Hrow'.
  by injection Hrow' as <-.
Qed.

Lemma id_row_no_ValueError d : id_row d ≠ Raise ValueError.
Proof.
  unfold Sync.id_row, extract_episode_ids, title_of, kwargs_of, getitem.
  repeat case_bool_decide; simpl;
    repeat (match goal with
            | |- context [match ?x with _ => _ end] => destruct x; simpl
            end); congruence.
Qed.

(** C8. An id type outside the seven valid ones makes [search_by_id]
    raise [ValueError] before it yields, so that no request is issued; a
    valid id type makes it yield its request, and what follows the
    response does not raise [ValueError] either. *)
Theorem search_by_id_validates query id_type :
  (id_type ∉ valids →
   search_by_id query id_type = Raised ValueError ∧
   ∀ http w, get http (search_by_id query id_type) w = (Raise ValueError, w)) ∧
  (id_type ∈ valids →
   ∃ k, search_by_id query id_type
        = Yield ("search?id=" +:+ slugify query +:+ "&id_type=" +:+ id_type) k ∧
        ∀ data, k data ≠ Raise ValueError).
Proof.
  unfold Sync.search_by_id. split; intros H.
  - rewrite bool_decide_eq_false_2 by done. done.
  - rewrite bool_decide_eq_true_2 by done. eexists. split; [reflexivity|].
    intros data. simpl.
    pose proof (mapM_no_raise id_row ValueError (map extract_ids data)
                  id_row_no_ValueError) as Hm.
    destruct (mapM _ _); simpl; congruence.
Qed.

End search.

Lemma search_results_one_per_row_witness :
  ∃ uri k,
    get_search_results id Examples.lift_ids "matrix" None = Yield uri k ∧
    k [Samples.list_row]
    = Ok [mkSearchResult (JStr "list") (JNum 3) None] ∧
    (get (λ _, Ok [Samples.list_row])
       (get_search_results id Examples.lift_ids "matrix" None) []).1
    = Ok [mkSearchResult (JStr "list") (JNum 3) None].
Proof.
  destruct (search_results_one_per_row id Examples.lift_ids "matrix" None)
    as (uri & k & Hy & Hget & Hnil & Hrow & _).
  exists uri, k. split; [exact Hy|].
  assert (k [Samples.list_row]
          = Ok [mkSearchResult (JStr "list") (JNum 3) None]) as Hk.
  { pose proof (Hrow [] Samples.list_row [] (JStr "list") (JNum 3)
                  eq_refl eq_refl eq_refl) as H.
    rewrite Hnil in H. exact H. }
  split; [exact Hk|].
  rewrite (Hget (λ _, Ok [Samples.list_row]) [] [Samples.list_row])
    by reflexivity.
  exact Hk.
Defined.

Example search_by_id_bogus http :
  get http (search_by_id id Examples.lift_ids "tt0133093" "bogus") []
  = (Raise ValueError, []).
Proof. reflexivity. Qed.

Example search_by_id_imdb :
  (get (λ _, Ok []) (search_by_id id Examples.lift_ids "tt0133093" "imdb") []).2
  = [mkRequest GET "search?id=tt0133093&id_type=imdb" None].
Proof. reflexivity. Qed.

Example get_search_results_rows :
  (get (λ _, Ok Examples.rows)
     (get_search_results id Examples.lift_ids "matrix" None) []).1
  = Ok [mkSearchResult (JStr "movie") (JNum 26.5)
          (Some (Movie {[ "title" := JStr "The Matrix" ]}));
        mkSearchResult (JStr "list") (JNum 3) None].
Proof. reflexivity. Qed.

(** ** Scrobbler *)

Import Scrobbler.

(** C5. [finish] sets the progress to 100 when it was below 80 and leaves
    the scrobbler as it was otherwise; either way it then issues one
    [scrobble/stop] request, whose payload carries the resulting progress.
    The media's JSON is assumed not to use the key [progress] itself. *)
Theorem finish_progress_and_stop self w :
  to_json (media self) !! "progress" = None →
  ∃ payload : dict,
    (finish self w).2 = w ++ [mkRequest POST "scrobble/stop" (Some payload)] ∧
    payload !! "progress" = Some (JNum (progress (finish self w).1)) ∧
    ((progress self < 80)%Q →
     (finish self w).1 = set_progress self 100 ∧
     progress (finish self w).1 = 100%Q) ∧
    (¬ (progress self < 80)%Q → (finish self w).1 = self).
Proof.
  intros Hm. unfold finish, stop, post, _post.
  destruct (Qltb (progress self) 80) eqn:E; simpl.
  - apply Qltb_lt in E. eexists. split; [reflexivity|].
    split; [|split; [done|intros []; exact E]].
    rewrite lookup_union_r by done. by simplify_map_eq.
  - assert (¬ (progress self < 80)%Q) as Hn.
    { intros Hlt. apply Qltb_lt in Hlt. congruence. }
    eexists. split; [reflexivity|].
    split; [|split; [intros Hlt; by destruct Hn|done]].
    rewrite lookup_union_r by done. by simplify_map_eq.
Qed.

Lemma finish_progress_and_stop_witness :
  to_json (media Examples.session) !! "progress" = None ∧
  ∃ payload : dict,
    (finish Examples.session []).2
    = [mkRequest POST "scrobble/stop" (Some payload)] ∧
    payload !! "progress" = Some (JNum 100) ∧
    progress (finish Examples.session []).1 = 100%Q.
Proof.
  split; [reflexivity|].
  destruct (finish_progress_and_stop Examples.session [])
    as (payload & Hw & Hp & Hlow & _); [reflexivity|].
  exists payload. split; [exact Hw|].
  destruct Hlow as [_ H100]; [reflexivity|].
  rewrite H100 in Hp. by split.
Defined.

(** C10. The constructor issues one [scrobble/start] request when the
    initial progress is above 0 and no request otherwise; [start],
    [update] and entering the scope each issue one [scrobble/start]
    request. *)
Theorem init_starts_iff_positive media p app_version app_date w :
  (__init__ media p app_version app_date w).1
  = mkScrobbler p app_version media app_date ∧
  ((0 < p)%Q →
   (__init__ media p app_version app_date w).2
   = w ++ [mkRequest POST "scrobble/start"
             (Some (_post (mkScrobbler p app_version media app_date)
                      "scrobble/start").2)]) ∧
  (¬ (0 < p)%Q → (__init__ media p app_version app_date w).2 = w) ∧
  (∀ self w',
     start self w'
     = w' ++ [mkRequest POST "scrobble/start"
                (Some (_post self "scrobble/start").2)]) ∧
  (∀ self q w',
     (update self q w').2
     = w' ++ [mkRequest POST "scrobble/start"
                (Some (_post (set_progress self q) "scrobble/start").2)]) ∧
  (∀ self w',
     (__enter__ self w').2
     = w' ++ [mkRequest POST "scrobble/start"
                (Some (_post self "scrobble/start").2)]).
Proof.
  unfold __init__. simpl.
  destruct (Qltb 0 p) eqn:E; simpl.
  - apply Qltb_lt in E. repeat split; try done; intros []; exact E.
  - assert (¬ (0 < p)%Q) as Hn.
    { intros Hlt. apply Qltb_lt in Hlt. congruence. }
    repeat split; try done.
Qed.

End SyncFacts.

(* ===================================================================== *)
(** * More about [sorted]                                                  *)
(* ===================================================================== *)

Module SortMore.

Import PyFacts.

Lemma mapM_cons {A B} (f : A → result B) x l :
  mapM f (x :: l) = f x ≫= λ y, mapM f l ≫= λ r, Ok (y :: r).
Proof. reflexivity. Qed.

Lemma mapM_Raise {A B} (f : A → result B) l e :
  mapM f l = Raise e → Exists (λ x, f x = Raise e) l.
Proof.
  induction l as [|x l IH]; [discriminate|].
  rewrite mapM_cons. destruct (f x) as [y|e'] eqn:E; simpl.
  - destruct (mapM f l) as [r|e'']; simpl; [discriminate|].
    intros [= ->]. right. by apply IH.
  - intros [= ->]. by left.
Qed.

Lemma mapM_total {A B} (f : A → result B) (g : A → B) l :
  (∀ x, f x = Ok (g x)) → mapM f l = Ok (map g l).
Proof.
  intros H. induction l as [|x l IH]; [done|].
  rewrite mapM_cons, H. simpl. by rewrite IH.
Qed.

Lemma decorate_Raise {A K} (key : A → result K) x e :
  decorate key x = Raise e → key x = Raise e.
Proof. unfold decorate. destruct (key x); simpl; congruence. Qed.

Section more.
Context {A K : Type}.
Variable lt : K → K → result bool.

(** A sort that returned has computed every key. *)
Lemma sorted_keys_Ok key (l out : list A) :
  sorted lt key l = Ok out → Forall (λ x, ∃ k, key x = Ok k) l.
Proof.
  unfold sorted. intros H. inv_bind H.
  apply mapM_decorate in Ha as [<- Hk].
  apply Forall_fmap. eapply Forall_impl; [exact Hk|].
  intros [k x] Hx. simpl in *. eauto.
Qed.

(** When comparisons never raise, only a key can make the sort raise. *)
Lemma sorted_Raise_key key (l : list A) e :
  (∀ a b, ∃ c, lt a b = Ok c) →
  sorted lt key l = Raise e → Exists (λ x, key x = Raise e) l.
Proof.
  intros Hlt. unfold sorted.
  destruct (mapM (decorate key) l) as [keyed|e'] eqn:E; simpl.
  - destruct (sort_returns lt (λ _, True) (λ a b _ _, Hlt a b) keyed) as [s ->].
    + by apply Forall_true.
    + discriminate.
  - intros [= ->]. apply mapM_Raise in E.
    eapply Exists_impl; [exact E|]. intros x. apply decorate_Raise.
Qed.

End more.

(** The transitive reading of "in order": every entry is in order with
    every later one. *)
Lemma by_key_trans {A K} (le : K → K → Prop) (key : A → result K) :
  Transitive le → Transitive (by_key le key).
Proof.
  intros Htr a b c (ka & kb & Ha & Hb & Hab) (kb' & kc & Hb' & Hc & Hbc).
  rewrite Hb in Hb'. injection Hb' as <-.
  exists ka, kc. repeat split; try done. by transitivity kb.
Qed.

End SortMore.

(* ===================================================================== *)
(** * More about the TV calendar                                           *)
(* ===================================================================== *)

Module CalendarExtra.

Import PyFacts SortMore Calendar CalendarRows CalendarFacts.

Section tv.
Variable airs_date : option string → datetime.
Variable known_seasons : string → dict → list TVSeason.

#[local] Abbreviation keep := (keep airs_date known_seasons).
#[local] Abbreviation kept_shows := (kept_shows airs_date known_seasons).
#[local] Abbreviation item_show := (item_show known_seasons).
#[local] Abbreviation item_episode := (item_episode airs_date known_seasons).
#[local] Abbreviation has_match := (has_match known_seasons).
#[local] Abbreviation _build := (_build airs_date known_seasons).

#[local] Abbreviation pruned := (pruned airs_date).
#[local] Abbreviation stuck := (stuck known_seasons).

Lemma kept_shows_matched data :
  Forall (λ it, has_match it = true) data → kept_shows data = map pruned data.
Proof.
  unfold Calendar.kept_shows.
  induction 1 as [|it data Hit _ IH]; simpl; [done|].
  rewrite (keep_match airs_date known_seasons it Hit). simpl. by rewrite <- IH.
Qed.

(** What a kept show holds: after a match the season of the episode with
    that episode alone, and without a match the one season of the show as
    it was. *)
Lemma keep_seasons it show :
  keep it = Some show →
  (has_match it = true ∧
   _seasons show = [mkTVSeason (episode_season it) [item_episode it]]) ∨
  (has_match it = false ∧
   _seasons show = known_seasons (show_title it) (show_data it)).
Proof.
  destruct (has_match it) eqn:E.
  - rewrite (keep_match airs_date known_seasons it E).
    intros [= <-]. left. by split.
  - rewrite (keep_no_match airs_date known_seasons it E).
    destruct (length _ =? 1)%nat; [|done]. intros [= <-]. right. by split.
Qed.

(** When every row has a season of its show with the season number of its
    episode, a calendar that was built has one entry per row, no row being
    dropped: the entries hold, each as its only season, the seasons of the
    episodes of the rows, and each such season holds the episode of its
    row alone, whose air date is the sort key of the entry. *)
Theorem tv_all_matched_complete data cal :
  Forall (λ it, has_match it = true) data →
  _build data = Ok cal →
  length cal = length data ∧
  _seasons <$> cal
    ≡ₚ (λ it, [mkTVSeason (episode_season it) [item_episode it]]) <$> data ∧
  Forall (λ show, ∃ it, it ∈ data ∧
            _seasons show
            = [mkTVSeason (episode_season it) [item_episode it]] ∧
            sort_key show = Ok (airs_date (first_aired it))) cal.
Proof.
  intros H Hcal. apply _build_Ok in Hcal.
  rewrite (kept_shows_matched _ H) in Hcal.
  pose proof (sorted_perm _ _ _ _ Hcal) as Hp.
  split; [by rewrite Hp, length_map|]. split.
  - rewrite Hp, <- list_fmap_compose. done.
  - rewrite Hp. apply Forall_fmap, Forall_forall. intros it Hit. simpl.
    exists it. by repeat split.
Qed.

(** The length of a calendar that was built: the number of rows less the
    rows that have no match and whose show does not have exactly one
    season. *)
Theorem tv_calendar_length data cal :
  _build data = Ok cal →
  length cal
  = (length data
     - length (filter (λ it, has_match it = false ∧
                 length (known_seasons (show_title it) (show_data it)) ≠ 1%nat)
                 data))%nat.
Proof.
  intros H. rewrite (_build_length airs_date known_seasons data cal H). f_equal. f_equal.
  apply list_filter_iff. intros it. apply (keep_None_iff airs_date).
Qed.

(** Every entry of a calendar that was built has exactly one season, and
    comes from a row of the response: from a row with a match, and then
    the season is that of the episode of the row and holds that episode
    alone, or from a row without a match, and then the season is the one
    season of the show, as the service gave it. *)
Theorem tv_calendar_entries data cal :
  _build data = Ok cal →
  Forall (λ show,
            length (_seasons show) = 1%nat ∧
            ∃ it, it ∈ data ∧
              ((has_match it = true ∧
                _seasons show
                = [mkTVSeason (episode_season it) [item_episode it]]) ∨
               (has_match it = false ∧
                _seasons show
                = known_seasons (show_title it) (show_data it)))) cal.
Proof.
  intros H. apply _build_Ok in H.
  rewrite (sorted_perm _ _ _ _ H). unfold Calendar.kept_shows.
  apply Forall_forall. intros show Hshow.
  apply list_elem_of_omap in Hshow as (it & Hit & Hkeep).
  split; [by eapply (keep_one_season airs_date known_seasons)|].
  exists it. split; [done|]. by apply keep_seasons.
Qed.

Lemma keep_key_stuck it :
  stuck it → ∃ show, keep it = Some show ∧ sort_key show = Raise IndexError.
Proof.
  intros (E & s & Hk & He). exists (item_show it). split.
  - rewrite (keep_no_match airs_date known_seasons it E). by rewrite Hk.
  - unfold Calendar.item_show, sort_key. simpl. by rewrite Hk, He.
Qed.

(** A row without a match whose show has one season, and that season no
    episode, is not skipped: it makes [_build] raise, and no calendar is
    built from the other rows either. *)
Theorem tv_build_stuck_row_raises data :
  Exists stuck data → ∃ e, _build data = Raise e.
Proof.
  intros H. apply Exists_exists in H as (it & Hit & Hs).
  destruct (keep_key_stuck _ Hs) as (show & Hk & Hkey).
  destruct (_build data) as [cal|e] eqn:E; [|eauto].
  apply _build_Ok, sorted_keys_Ok in E.
  assert (show ∈ kept_shows data) as Hin.
  { apply list_elem_of_omap. eauto. }
  eapply Forall_forall in E as [t Ht]; [|exact Hin]. congruence.
Qed.

End tv.

Lemma tv_all_matched_complete_witness :
  Forall (λ it, has_match Examples.known it = true) Samples.matched_week ∧
  _build Examples.airs Examples.known Samples.matched_week
  = Ok (Examples.kept_of <$> [Examples.early; Examples.late; Examples.late_too]) ∧
  length (Examples.kept_of <$> [Examples.early; Examples.late; Examples.late_too])
  = length Samples.matched_week.
Proof.
  assert (Forall (λ it, has_match Examples.known it = true)
            Samples.matched_week) as H.
  { repeat constructor. }
  split; [exact H|]. split; [reflexivity|].
  destruct (tv_all_matched_complete Examples.airs Examples.known
              Samples.matched_week
              (Examples.kept_of <$>
                 [Examples.early; Examples.late; Examples.late_too]) H)
    as (Hlen & _); [reflexivity|].
  exact Hlen.
Defined.

Lemma tv_calendar_length_witness :
  _build Examples.airs Examples.known Examples.week
  = Ok (Examples.kept_of <$> [Examples.early; Examples.late; Examples.late_too]) ∧
  length (Examples.kept_of <$> [Examples.early; Examples.late; Examples.late_too])
  = (length Examples.week
     - length (filter (λ it, has_match Examples.known it = false ∧
                 length (Examples.known (show_title it) (show_data it)) ≠ 1%nat)
                 Examples.week))%nat.
Proof.
  split; [reflexivity|].
  apply (tv_calendar_length Examples.airs Examples.known Examples.week).
  reflexivity.
Defined.

Lemma tv_calendar_entries_witness :
  _build Examples.airs Examples.known [Examples.special]
  = Ok [item_show Examples.known Examples.special] ∧
  Forall (λ show,
            length (_seasons show) = 1%nat ∧
            ∃ it, it ∈ [Examples.special] ∧
              ((has_match Examples.known it = true ∧
                _seasons show
                = [mkTVSeason (episode_season it)
                     [item_episode Examples.airs Examples.known it]]) ∨
               (has_match Examples.known it = false ∧
                _seasons show
                = Examples.known (show_title it) (show_data it))))
    [item_show Examples.known Examples.special].
Proof.
  split; [reflexivity|].
  apply (tv_calendar_entries Examples.airs Examples.known [Examples.special]).
  reflexivity.
Defined.

Lemma tv_build_stuck_row_raises_witness :
  Exists (stuck Samples.known_bare) [Examples.early; Examples.special] ∧
  ∃ e, _build Examples.airs Samples.known_bare
         [Examples.early; Examples.special] = Raise e.
Proof.
  assert (Exists (stuck Samples.known_bare)
            [Examples.early; Examples.special]) as H.
  { right. left. split; [reflexivity|].
    exists (mkTVSeason 1 []). by split. }
  split; [exact H|].
  exact (tv_build_stuck_row_raises Examples.airs Samples.known_bare
           [Examples.early; Examples.special] H).
Defined.

End CalendarExtra.

(* ===================================================================== *)
(** * The calendar object                                                  *)
(* ===================================================================== *)

Module CalendarObjectFacts.

Import PyFacts SortMore Sync CalendarObject.

Lemma list_getitem_first {A} (l : list A) x :
  list_getitem l 0 = Ok x → ∃ rest, l = x :: rest.
Proof.
  unfold list_getitem. simpl. destruct l as [|y rest]; simpl; [done|].
  intros [= ->]. eauto.
Qed.

Lemma list_getitem_last {A} (l : list A) x :
  list_getitem l (-1) = Ok x → ∃ init, l = init ++ [x].
Proof.
  unfold list_getitem. simpl.
  destruct (-1 + Z.of_nat (length l) <? 0)%Z eqn:E; [done|].
  apply Z.ltb_ge in E.
  destruct (l !! Z.to_nat (-1 + Z.of_nat (length l))) as [y|] eqn:El; [|done].
  intros [= ->]. apply last_Some. rewrite last_lookup.
  replace (pred (length l)) with (Z.to_nat (-1 + Z.of_nat (length l))) by lia.
  exact El.
Qed.

Lemma list_getitem_empty {A} (key : Z) :
  list_getitem (@nil A) key = Raise IndexError.
Proof.
  unfold list_getitem. simpl.
  destruct (key <? 0)%Z eqn:E.
  - apply Z.ltb_lt in E. rewrite Z.add_0_r.
    destruct (key <? 0)%Z eqn:E'; [done|]. apply Z.ltb_ge in E'. lia.
  - rewrite E. done.
Qed.

Section tv.
Variable airs_date : option string → datetime.
Variable known_seasons : string → dict → list Calendar.TVSeason.
Variable url now : string.

(** In a TV calendar that was constructed, the entry at index 0 airs no
    later than any entry and the entry at index -1 no earlier than any,
    by the key of line 107; an empty calendar has no entry at any
    index. *)
Theorem tv_calendar_first_last http date days w self :
  (CalendarObject.__init__ url (Calendar._build airs_date known_seasons) now
     http date days w).1 = Ok self →
  (∀ x, __getitem__ self 0 = Ok x →
        Forall (λ y, by_key Z.le Calendar.sort_key x y) (__iter__ self)) ∧
  (∀ x, __getitem__ self (-1) = Ok x →
        Forall (λ y, by_key Z.le Calendar.sort_key y x) (__iter__ self)) ∧
  (__len__ self = 0%nat → ∀ key, __getitem__ self key = Raise IndexError).
Proof.
  unfold CalendarObject.__init__, _get. simpl. intros H.
  inv_bind H. inv_bind H. injection H as <-.
  unfold __getitem__, __iter__, __len__. simpl.
  apply CalendarFacts._build_Ok in Ha0.
  pose proof (sorted_perm _ _ _ _ Ha0) as Hp.
  assert (Forall (λ x, ∃ k, Calendar.sort_key x = Ok k) a0) as Hk.
  { rewrite Hp. by eapply sorted_keys_Ok. }
  assert (StronglySorted (by_key Z.le Calendar.sort_key) a0) as Hs.
  { apply Sorted_StronglySorted.
    - apply by_key_trans. intros ???. apply Z.le_trans.
    - eapply sorted_Sorted; [| |exact Ha0].
      + apply datetime_lt_true.
      + apply datetime_lt_false. }
  split; [|split].
  - intros x Hx. apply list_getitem_first in Hx as [rest ->].
    apply StronglySorted_inv in Hs as [_ Hs]. constructor; [|done].
    apply Forall_cons in Hk as [[k Hkx] _]. exists k, k. by repeat split.
  - intros x Hx. apply list_getitem_last in Hx as [init ->].
    apply Forall_app. split.
    + apply Forall_forall. intros y Hy.
      eapply StronglySorted_app_1_elem_of; [exact Hs|exact Hy|]. by left.
    + constructor; [|done].
      apply Forall_app in Hk as [_ Hk]. apply Forall_cons in Hk as [[k Hkx] _].
      exists k, k. by repeat split.
  - intros Hlen key. destruct a0; [|done]. apply list_getitem_empty.
Qed.

End tv.

Lemma tv_calendar_first_last_witness :
  (CalendarObject.__init__ "calendars/all/shows"
     (Calendar._build Examples.airs Examples.known) "2014-09-01"
     Samples.tv_http None 7 []).1
  = Ok (mkCalendar "2014-09-01" 7
          (Examples.kept_of <$>
             [Examples.early; Examples.late; Examples.late_too])) ∧
  Forall (λ y, by_key Z.le Calendar.sort_key (Examples.kept_of Examples.early) y)
    (Examples.kept_of <$> [Examples.early; Examples.late; Examples.late_too]).
Proof.
  split; [reflexivity|].
  destruct (tv_calendar_first_last Examples.airs Examples.known
              "calendars/all/shows" "2014-09-01" Samples.tv_http None 7 []
              (mkCalendar "2014-09-01" 7
                 (Examples.kept_of <$>
                    [Examples.early; Examples.late; Examples.late_too])))
    as (Hfirst & _); [reflexivity|].
  apply Hfirst. reflexivity.
Defined.

End CalendarObjectFacts.

(* ===================================================================== *)
(** * More about the movie calendar                                        *)
(* ===================================================================== *)

Module MovieCalendarExtra.

Import PyFacts SortMore MovieCalendar MovieCalendarFacts.

(** A sort of keys that are a string or [None] returns only if the list
    has fewer than two entries or every key is a string. *)
Lemma opt_sort_Ok_inv {A} (l s : list (option string * A)) :
  sort opt_str_lt l = Ok s →
  (length l < 2)%nat ∨ Forall (λ p, is_Some p.1) l.
Proof.
  revert s. induction l as [|[k x] l IH]; intros s H; simpl in H.
  { left. simpl. lia. }
  inv_bind H. pose proof (sort_perm _ _ _ Ha) as Hp.
  destruct l as [|p l]; [left; simpl; lia|]. right.
  destruct a as [|[ky y] a'].
  { apply Permutation_nil_l in Hp. done. }
  simpl in H. destruct ky as [sy|], k as [sk|]; simpl in H; try done.
  constructor; [by eexists|].
  destruct (IH _ Ha) as [Hlen|Hall]; [|done].
  destruct l; [|simpl in Hlen; lia].
  apply Permutation_length in Hp as Hl. destruct a'; [|done].
  apply Permutation_singleton_l in Hp. injection Hp as <-.
  constructor; [by eexists | constructor].
Qed.

Lemma fold_movie_step_inv data acc :
  match fold_left build_step data (Ok acc) with
  | Ok res =>
      Forall (λ row, default ∅ (mi_movie row) !! "released" = None) data
  | Raise e =>
      e = TypeError ∧
      Exists (λ row, is_Some (default ∅ (mi_movie row) !! "released")) data
  end.
Proof.
  revert acc. induction data as [|row data IH]; intros acc; simpl; [done|].
  unfold new_Movie.
  destruct (default ∅ (mi_movie row) !! "released") as [v|] eqn:E; simpl.
  - rewrite fold_movie_step_Raise. split; [done|]. left. by rewrite E.
  - specialize (IH (acc ++ [mkMovie (mi_released row) (default ∅ (mi_movie row))])).
    destruct (fold_left _ _ _); [by constructor|].
    destruct IH as [-> IH]. split; [done | by right].
Qed.

(** [MovieCalendar._build] returns only if no movie fragment has a
    [released] field of its own, which line 159 would give twice, and
    either the response has fewer than two rows or every row has a release
    date, as [sorted] cannot compare [None]. *)
Theorem movie_build_returns_only_if data cal :
  _build data = Ok cal →
  Forall (λ row, default ∅ (mi_movie row) !! "released" = None) data ∧
  ((length data < 2)%nat ∨ Forall (λ row, is_Some (mi_released row)) data).
Proof.
  unfold _build. intros H. inv_bind H.
  pose proof (fold_movie_step_inv data []) as Hfold. rewrite Ha in Hfold.
  split; [exact Hfold|].
  apply fold_movie_step in Ha. simpl in Ha. subst a.
  unfold sorted in H.
  rewrite (mapM_total (decorate released_key) (λ m, (released m, m)))
    in H by done.
  simpl in H. inv_bind H. apply opt_sort_Ok_inv in Ha as [Hlen|Hall].
  - left. by rewrite !length_map in Hlen.
  - right. rewrite !Forall_fmap in Hall. exact Hall.
Qed.

Lemma movie_build_returns_only_if_witness :
  _build Examples.releases
  = Ok [mkMovie (Some "2014-08-01") ∅;
        mkMovie (Some "2014-08-03") {[ "title" := JStr "B" ]};
        mkMovie (Some "2014-08-03") {[ "title" := JStr "C" ]}] ∧
  Forall (λ row, default ∅ (mi_movie row) !! "released" = None)
    Examples.releases ∧
  ((length Examples.releases < 2)%nat ∨
   Forall (λ row, is_Some (mi_released row)) Examples.releases).
Proof.
  split; [reflexivity|].
  apply (movie_build_returns_only_if Examples.releases
           [mkMovie (Some "2014-08-01") ∅;
            mkMovie (Some "2014-08-03") {[ "title" := JStr "B" ]};
            mkMovie (Some "2014-08-03") {[ "title" := JStr "C" ]}]).
  reflexivity.
Defined.

(** The movies of one release date are in the calendar in the order of
    their rows in the response. *)
Theorem movie_calendar_stable data cal :
  _build data = Ok cal →
  ∀ d : option string,
    filter (λ m, released m = d) cal
    = filter (λ m, released m = d) (map row_movie data).
Proof.
  unfold _build. intros H d. inv_bind H.
  apply fold_movie_step in Ha. simpl in Ha. subst a.
  pose proof (sorted_stable opt_str_lt opt_str_lt_irrefl released_key
                _ _ d H) as Hst.
  rewrite (list_filter_iff (λ m, released m = d)
             (λ m, released_key m = Ok d)).
  - rewrite Hst. apply list_filter_iff. intros m. unfold released_key.
    split; congruence.
  - intros m. unfold released_key. split; congruence.
Qed.

Lemma movie_calendar_stable_witness :
  _build Examples.releases
  = Ok [mkMovie (Some "2014-08-01") ∅;
        mkMovie (Some "2014-08-03") {[ "title" := JStr "B" ]};
        mkMovie (Some "2014-08-03") {[ "title" := JStr "C" ]}] ∧
  filter (λ m, released m = Some "2014-08-03")
    [mkMovie (Some "2014-08-01") ∅;
     mkMovie (Some "2014-08-03") {[ "title" := JStr "B" ]};
     mkMovie (Some "2014-08-03") {[ "title" := JStr "C" ]}]
  = filter (λ m, released m = Some "2014-08-03")
      (map row_movie Examples.releases).
Proof.
  split; [reflexivity|].
  apply (movie_calendar_stable Examples.releases). reflexivity.
Defined.

End MovieCalendarExtra.

(* ===================================================================== *)
(** * More about sync payloads and search                                  *)
(* ===================================================================== *)

Module SyncExtra.

Import PyFacts SortMore Sync SyncFacts.

(** ** comment, add_to_history *)

(** The payload of [comment] has the fields of the media's JSON and the
    three fields [comment], [spoiler] and [review], and no other; unless
    the media's JSON has a [review] field of its own, the review flag of
    the payload is set when the given flag is set or the text is longer
    than 200 characters. *)
Theorem comment_fields_and_flag media comment_body spoiler review :
  dom (comment media comment_body spoiler review).2
  = dom (to_json media) ∪ {[ "comment"; "spoiler"; "review" ]} ∧
  (to_json media !! "review" = None →
   (comment media comment_body spoiler review).2 !! "review"
   = Some (JBool (review || (200 <? String.length comment_body)%nat))).
Proof.
  unfold comment. simpl. split.
  - rewrite dom_union_L, !dom_insert_L, dom_singleton_L. set_solver.
  - intros Hr. rewrite lookup_union_r by done.
    destruct review, (200 <? String.length comment_body)%nat; simpl;
      by simplify_map_eq.
Qed.

(** The payload of [add_to_history] is a one-entry object, keyed by the
    media's type, holding the list of one object: the media's identifier
    fields and the serialized time of watching, which is the clock at the
    call when [watched_at] is omitted; the identifier fields are assumed
    not to use the key [watched_at] themselves. *)
Theorem add_to_history_payload timestamp now media watched_at :
  ids media !! "watched_at" = None →
  ∃ data : dict,
    add_to_history timestamp now media watched_at
    = ("sync/history", {[ media_type media := JList [JObj data] ]}) ∧
    dom data = dom (ids media) ∪ {[ "watched_at" ]} ∧
    data !! "watched_at" = Some (JStr (timestamp (default now watched_at))) ∧
    ∀ k, k ≠ "watched_at" → data !! k = ids media !! k.
Proof.
  intros Hw. eexists. split; [reflexivity|]. split; [|split].
  - rewrite dom_union_L, dom_singleton_L. done.
  - rewrite lookup_union_r by done. destruct watched_at; by simplify_map_eq.
  - intros k Hk. destruct (ids media !! k) as [v|] eqn:E.
    + by apply lookup_union_Some_l.
    + rewrite lookup_union_r by done. by simplify_map_eq.
Qed.

Lemma add_to_history_payload_witness :
  ids Examples.the_matrix !! "watched_at" = None ∧
  ∃ data : dict,
    add_to_history Examples.iso 1409605200 Examples.the_matrix None
    = ("sync/history", {[ "movies" := JList [JObj data] ]}) ∧
    data !! "watched_at" = Some (JStr "2014-09-01T21:00:00.000Z").
Proof.
  split; [reflexivity|].
  destruct (add_to_history_payload Examples.iso 1409605200
              Examples.the_matrix None)
    as (data & Hpay & _ & Hw & _); [reflexivity|].
  exists data. split; [exact Hpay | exact Hw].
Defined.

(** ** Search *)

Lemma mapM_Ok_all {A B} (f : A → result B) l k :
  mapM f l = Ok k → Forall (λ x, ∃ y, f x = Ok y) l.
Proof.
  intros H. apply mapM_Forall2 in H.
  induction H as [|x y l k Hxy _ IH]; constructor; eauto.
Qed.

Lemma mapM_Ok_or_Raise {A B} (f : A → result B) l :
  (∃ k, mapM f l = Ok k) ∨ (∃ e, mapM f l = Raise e).
Proof. destruct (mapM f l); eauto. Qed.

Lemma str_eq_true v s : str_eq v s = true → v = JStr s.
Proof.
  destruct v; simpl; try discriminate. intros H.
  apply String.eqb_eq in H. by subst.
Qed.

Section search.
Variable slugify : string → string.
Variable extract_ids : dict → dict.

#[local] Abbreviation search_row := (search_row extract_ids).
#[local] Abbreviation get_search_results :=
  (get_search_results slugify extract_ids).
#[local] Abbreviation search := (search slugify extract_ids).
#[local] Abbreviation id_row := (id_row extract_ids).
#[local] Abbreviation search_by_id := (search_by_id slugify extract_ids).

(** What a row that was parsed looked like. *)
Lemma search_row_inv row r :
  search_row row = Ok r →
  extract_ids row !! "type" = Some (type r) ∧
  extract_ids row !! "score" = Some (score r) ∧
  match media r with
  | None => recognized (type r) = false
  | Some (Movie m) =>
      type r = JStr "movie" ∧ extract_ids row !! "movie" = Some (JObj m)
  | Some (TVShow m) =>
      type r = JStr "show" ∧ extract_ids row !! "show" = Some (JObj m)
  | Some (TVEpisode t m) =>
      type r = JStr "episode" ∧
      extract_ids row !! "episode" = Some (JObj m) ∧
      ∃ show, extract_ids row !! "show" = Some (JObj show) ∧
              t = show !! "title"
  | Some (Person m) =>
      type r = JStr "person" ∧ extract_ids row !! "person" = Some (JObj m)
  end.
Proof.
  unfold Sync.search_row, getitem.
  destruct (extract_ids row !! "type") as [ty|] eqn:Ety; [|discriminate].
  destruct (extract_ids row !! "score") as [sc|] eqn:Esc; [|discriminate].
  simpl. unfold recognized.
  destruct (str_eq ty "movie") eqn:E1.
  { apply str_eq_true in E1. subst ty.
    destruct (extract_ids row !! "movie") as [[]|]; simpl; try discriminate.
    intros [= <-]. simpl. done. }
  destruct (str_eq ty "show") eqn:E2.
  { apply str_eq_true in E2. subst ty.
    destruct (extract_ids row !! "show") as [[]|]; simpl; try discriminate.
    intros [= <-]. simpl. done. }
  destruct (str_eq ty "episode") eqn:E3.
  { apply str_eq_true in E3. subst ty.
    destruct (extract_ids row !! "show") as [[]|]; simpl; try discriminate.
    destruct (extract_ids row !! "episode") as [[]|]; simpl; try discriminate.
    intros [= <-]. simpl. repeat split; eauto. }
  destruct (str_eq ty "person") eqn:E4.
  { apply str_eq_true in E4. subst ty.
    destruct (extract_ids row !! "person") as [[]|]; simpl; try discriminate.
    intros [= <-]. simpl. done. }
  intros [= <-]. simpl. by rewrite E1, E2, E3, E4.
Qed.

(** The media of a search result is of the kind its type names and is
    constructed from the fragment of the row under that name; an episode
    also takes the title of the show of the row, if it has one.  A result
    has no media exactly when its type is none of the four known ones. *)
Theorem search_result_media_kind row r :
  search_row row = Ok r →
  extract_ids row !! "type" = Some (type r) ∧
  extract_ids row !! "score" = Some (score r) ∧
  (media r = None ↔ recognized (type r) = false) ∧
  (∀ m, media r = Some (Movie m) →
        type r = JStr "movie" ∧ extract_ids row !! "movie" = Some (JObj m)) ∧
  (∀ m, media r = Some (TVShow m) →
        type r = JStr "show" ∧ extract_ids row !! "show" = Some (JObj m)) ∧
  (∀ t m, media r = Some (TVEpisode t m) →
        type r = JStr "episode" ∧
        extract_ids row !! "episode" = Some (JObj m) ∧
        ∃ show, extract_ids row !! "show" = Some (JObj show) ∧
                t = show !! "title") ∧
  (∀ m, media r = Some (Person m) →
        type r = JStr "person" ∧ extract_ids row !! "person" = Some (JObj m)).
Proof.
  intros H. apply search_row_inv in H as (Hty & Hsc & Hm).
  split; [done|]. split; [done|].
  destruct (media r) as [[m|m|t m|m]|]; repeat split;
    try done; try (intros; simplify_eq; tauto).
  all: destruct Hm as [-> ?]; discriminate.
Qed.

(** A row without a type or a score, and a row of a known type without
    the fragment of that type (for an episode: without its show), raises
    [KeyError]. *)
Theorem search_row_missing_key row :
  (extract_ids row !! "type" = None → search_row row = Raise KeyError) ∧
  (is_Some (extract_ids row !! "type") →
   extract_ids row !! "score" = None → search_row row = Raise KeyError) ∧
  (is_Some (extract_ids row !! "score") →
   (extract_ids row !! "type" = Some (JStr "movie") →
    extract_ids row !! "movie" = None → search_row row = Raise KeyError) ∧
   (extract_ids row !! "type" = Some (JStr "show") →
    extract_ids row !! "show" = None → search_row row = Raise KeyError) ∧
   (extract_ids row !! "type" = Some (JStr "episode") →
    extract_ids row !! "show" = None → search_row row = Raise KeyError) ∧
   (extract_ids row !! "type" = Some (JStr "person") →
    extract_ids row !! "person" = None → search_row row = Raise KeyError)).
Proof.
  unfold Sync.search_row, getitem. split; [by intros ->|]. split.
  - intros [ty ->] ->. done.
  - intros [sc ->]. repeat split; intros -> ->; done.
Qed.

(** A search is all or nothing: when a row of the response cannot be
    parsed, [get_search_results] raises and returns no result. *)
Theorem search_all_or_nothing query search_type data row e :
  row ∈ data →
  search_row row = Raise e →
  ∃ uri k, get_search_results query search_type = Yield uri k ∧
           ∃ e', k data = Raise e'.
Proof.
  intros Hin Hrow. eexists _, _. split; [reflexivity|]. simpl.
  destruct (mapM_Ok_or_Raise search_row data) as [[k Hk]|He]; [|done].
  apply mapM_Ok_all in Hk. eapply Forall_forall in Hk as [y Hy]; [|exact Hin].
  congruence.
Qed.

(** [search] with a single type asks for [search/<type>?query=<slug>],
    whatever the year, and returns, when it returns, one entry per row of
    the response: the media of the row, or [None] for a row of a type
    that is none of the four known ones. *)
Theorem search_single_type query ty year :
  ∃ k,
    search query (inl ty) year
    = Yield ("search/" +:+ ty +:+ "?query=" +:+ slugify query) k ∧
    ∀ data medias,
      k data = Ok medias →
      length medias = length data ∧
      ∀ i row t,
        data !! i = Some row →
        extract_ids row !! "type" = Some t →
        recognized t = false →
        medias !! i = Some None.
Proof.
  eexists. split; [reflexivity|]. intros data medias H. simpl in H.
  inv_bind H. injection H as <-. apply mapM_Forall2 in Ha.
  split; [rewrite length_map; symmetry; by eapply Forall2_length|].
  intros i row t Hrow Hty Hrec.
  destruct (Forall2_lookup_l _ _ _ _ _ Ha Hrow) as (r & Hr & Hparse).
  rewrite list_lookup_fmap, Hr. simpl. f_equal.
  apply search_row_inv in Hparse as (Hty' & _ & Hm).
  rewrite Hty in Hty'. injection Hty' as ->.
  destruct (media r) as [[m|m|t' m|m]|]; [..|done];
    destruct Hm as [Heq _]; rewrite Heq in Hrec; discriminate.
Qed.

(** ** Search by id *)

(** A row of a search by id gives at most one entity, chosen by the first
    of the keys [episode], [movie], [show] and [person] that the row has:
    a row with none of them gives nothing, and an episode is constructed
    from the title of the show of the row and the episode fragment with
    its ids extracted. *)
Theorem id_row_priority d l :
  id_row d = Ok l →
  match l with
  | [] =>
      d !! "episode" = None ∧ d !! "movie" = None ∧ d !! "show" = None ∧
      d !! "person" = None
  | [TVEpisode t m] =>
      ∃ show title ep,
        d !! "show" = Some (JObj show) ∧ show !! "title" = Some title ∧
        t = Some title ∧
        d !! "episode" = Some (JObj ep) ∧ m = extract_ids ep
  | [Movie m] => d !! "episode" = None ∧ d !! "movie" = Some (JObj m)
  | [TVShow m] =>
      d !! "episode" = None ∧ d !! "movie" = None ∧
      d !! "show" = Some (JObj m)
  | [Person m] =>
      d !! "episode" = None ∧ d !! "movie" = None ∧ d !! "show" = None ∧
      d !! "person" = Some (JObj m)
  | _ => False
  end.
Proof.
  unfold Sync.id_row, extract_episode_ids, title_of, kwargs_of, getitem.
  destruct (d !! "episode") as [ep|] eqn:Eep.
  { rewrite bool_decide_eq_true_2 by eauto.
    destruct (d !! "show") as [show|] eqn:Esh; simpl; [|discriminate].
    destruct ep as [| | | | |ep]; simpl; try discriminate.
    rewrite lookup_insert_eq. simpl.
    destruct show as [| | | | |show]; simpl; try discriminate.
    destruct (show !! "title") as [title|] eqn:Et; simpl; [|discriminate].
    intros [= <-]. by exists show, title, ep. }
  rewrite bool_decide_eq_false_2 by (intros [? ?]; discriminate).
  destruct (d !! "movie") as [mv|] eqn:Emv.
  { rewrite bool_decide_eq_true_2 by eauto. simpl.
    destruct mv; simpl; try discriminate. intros [= <-]. done. }
  rewrite bool_decide_eq_false_2 by (intros [? ?]; discriminate).
  destruct (d !! "show") as [sh|] eqn:Esh.
  { rewrite bool_decide_eq_true_2 by eauto. simpl.
    destruct sh; simpl; try discriminate. intros [= <-]. done. }
  rewrite bool_decide_eq_false_2 by (intros [? ?]; discriminate).
  destruct (d !! "person") as [pe|] eqn:Epe.
  { rewrite bool_decide_eq_true_2 by eauto. simpl.
    destruct pe; simpl; try discriminate. intros [= <-]. done. }
  rewrite bool_decide_eq_false_2 by (intros [? ?]; discriminate).
  intros [= <-]. done.
Qed.

Lemma id_row_length d l : id_row d = Ok l → (length l ≤ 1)%nat.
Proof.
  unfold Sync.id_row, extract_episode_ids, title_of, kwargs_of, getitem.
  repeat case_bool_decide; simpl;
    repeat (match goal with
            | |- context [match ?x with _ => _ end] => destruct x; simpl
            end); intros [= <-]; simpl; lia.
Qed.

Lemma id_row_none d :
  d !! "episode" = None → d !! "movie" = None → d !! "show" = None →
  d !! "person" = None → id_row d = Ok [].
Proof.
  intros H1 H2 H3 H4. unfold Sync.id_row. rewrite H1, H2, H3, H4.
  rewrite !bool_decide_eq_false_2 by (intros [? ?]; discriminate). done.
Qed.

Lemma id_row_episode_without_show d :
  is_Some (d !! "episode") → d !! "show" = None → id_row d = Raise KeyError.
Proof.
  intros H1 H2. unfold Sync.id_row, getitem.
  rewrite bool_decide_eq_true_2 by done. by rewrite H2.
Qed.

Lemma concat_length_le {A} (ls : list (list A)) :
  Forall (λ l, (length l ≤ 1)%nat) ls → (length (concat ls) ≤ length ls)%nat.
Proof.
  induction 1 as [|l ls Hl _ IH]; simpl; [lia|]. rewrite length_app. lia.
Qed.

Lemma concat_nils {A} (ls : list (list A)) :
  Forall (λ l, l = []) ls → concat ls = [].
Proof. induction 1 as [|l ls -> _ IH]; simpl; done. Qed.

(** With a valid id type, [search_by_id] asks for
    [search?id=<slug>&id_type=<type>]; when it returns it returns at most
    one entity per row of the response, and none at all when no row has
    one of the four keys.  A row with an episode and no show makes it
    raise. *)
Theorem search_by_id_results query id_type :
  id_type ∈ valids →
  ∃ k,
    search_by_id query id_type
    = Yield ("search?id=" +:+ slugify query +:+ "&id_type=" +:+ id_type) k ∧
    (∀ data results,
       k data = Ok results →
       (length results ≤ length data)%nat ∧
       (Forall (λ d, extract_ids d !! "episode" = None ∧
                     extract_ids d !! "movie" = None ∧
                     extract_ids d !! "show" = None ∧
                     extract_ids d !! "person" = None) data →
        results = [])) ∧
    ∀ data,
      Exists (λ d, is_Some (extract_ids d !! "episode") ∧
                   extract_ids d !! "show" = None) data →
      ∃ e, k data = Raise e.
Proof.
  intros Hv. unfold Sync.search_by_id. rewrite bool_decide_eq_true_2 by done.
  eexists. split; [reflexivity|]. split.
  - intros data results H. simpl in H. inv_bind H. injection H as <-.
    apply mapM_Forall2 in Ha. split.
    + etransitivity; [apply concat_length_le|].
      * clear -Ha. induction Ha as [|d l ds ls Hd _ IH]; constructor;
          [by eapply id_row_length | done].
      * apply Forall2_length in Ha. rewrite length_map in Ha. lia.
    + intros Hnone. apply concat_nils.
      apply Forall2_fmap_l in Ha. clear -Ha Hnone.
      induction Ha as [|d l ds ls Hd _ IH]; [constructor|].
      apply Forall_cons in Hnone as [(H1 & H2 & H3 & H4) Hnone].
      constructor; [|by apply IH].
      simpl in Hd. rewrite (id_row_none _ H1 H2 H3 H4) in Hd.
      by injection Hd as <-.
  - intros data Hex. simpl.
    destruct (mapM_Ok_or_Raise id_row (map extract_ids data))
      as [[ls Hls]|[e He]].
    + apply mapM_Ok_all in Hls.
      apply Exists_exists in Hex as (d & Hin & Hep & Hsh).
      eapply Forall_forall in Hls as [l Hl];
        [|apply (list_elem_of_fmap_2 extract_ids); exact Hin].
      rewrite (id_row_episode_without_show _ Hep Hsh) in Hl. discriminate.
    + rewrite He. simpl. eauto.
Qed.

End search.

Lemma search_result_media_kind_witness :
  search_row Examples.lift_ids Samples.movie_row
  = Ok (mkSearchResult (JStr "movie") (JNum 26.5)
          (Some (Movie {[ "title" := JStr "The Matrix" ]}))) ∧
  Examples.lift_ids Samples.movie_row !! "type" = Some (JStr "movie").
Proof.
  split; [reflexivity|].
  destruct (search_result_media_kind Examples.lift_ids Samples.movie_row
              (mkSearchResult (JStr "movie") (JNum 26.5)
                 (Some (Movie {[ "title" := JStr "The Matrix" ]}))))
    as (Hty & _); [reflexivity|].
  exact Hty.
Defined.

Lemma search_all_or_nothing_witness :
  Samples.episode_row ∈ [Samples.movie_row; Samples.episode_row] ∧
  search_row Examples.lift_ids Samples.episode_row = Raise KeyError ∧
  ∃ uri k,
    get_search_results id Examples.lift_ids "matrix" None = Yield uri k ∧
    ∃ e', k [Samples.movie_row; Samples.episode_row] = Raise e'.
Proof.
  assert (Samples.episode_row ∈ [Samples.movie_row; Samples.episode_row])
    as Hin by (right; left).
  split; [exact Hin|]. split; [reflexivity|].
  apply (search_all_or_nothing id Examples.lift_ids "matrix" None
           [Samples.movie_row; Samples.episode_row] Samples.episode_row
           KeyError Hin).
  reflexivity.
Defined.

Lemma id_row_priority_witness :
  id_row Examples.lift_ids Samples.episode_row
  = Ok [TVEpisode (Some (JStr "Breaking Bad"))
          {[ "title" := JStr "Pilot"; "trakt" := JNum 73640 ]}] ∧
  ∃ show title ep,
    Samples.episode_row !! "show" = Some (JObj show) ∧
    show !! "title" = Some title ∧
    Some (JStr "Breaking Bad") = Some title ∧
    Samples.episode_row !! "episode" = Some (JObj ep) ∧
    ({[ "title" := JStr "Pilot"; "trakt" := JNum 73640 ]} : dict)
    = Examples.lift_ids ep.
Proof.
  split; [vm_compute; reflexivity|].
  apply (id_row_priority Examples.lift_ids Samples.episode_row
           [TVEpisode (Some (JStr "Breaking Bad"))
              {[ "title" := JStr "Pilot"; "trakt" := JNum 73640 ]}]).
  vm_compute. reflexivity.
Defined.

Lemma search_by_id_results_witness :
  "imdb" ∈ valids ∧
  ∃ k,
    search_by_id id Examples.lift_ids "tt0133093" "imdb"
    = Yield "search?id=tt0133093&id_type=imdb" k.
Proof.
  assert ("imdb" ∈ valids) as Hv by (unfold valids; set_solver).
  split; [exact Hv|].
  destruct (search_by_id_results id Examples.lift_ids "tt0133093" "imdb" Hv)
    as (k & Hk & _).
  exists k. exact Hk.
Defined.

End SyncExtra.

(* ===================================================================== *)
(** * More about the scrobbler                                             *)
(* ===================================================================== *)

Module ScrobblerExtra.

Import PyFacts Sync Sync.Scrobbler.

(** Every operation of a scrobbler issues exactly one request, a POST to
    the endpoint of its kind, after the requests issued before; none
    changes the media, the version or the date of the scrobbler, and
    [start], [pause] and [stop] send its progress as it is. *)
Theorem scrobbler_one_post_each self p w :
  start self w
  = w ++ [mkRequest POST "scrobble/start" (Some (_post self "scrobble/start").2)] ∧
  pause self w
  = w ++ [mkRequest POST "scrobble/pause" (Some (_post self "scrobble/pause").2)] ∧
  stop self w
  = w ++ [mkRequest POST "scrobble/stop" (Some (_post self "scrobble/stop").2)] ∧
  (∃ body, (finish self w).2 = w ++ [mkRequest POST "scrobble/stop" (Some body)]) ∧
  (∃ body, (update self p w).2 = w ++ [mkRequest POST "scrobble/start" (Some body)]) ∧
  (∃ body, (__exit__ self w).2 = w ++ [mkRequest POST "scrobble/stop" (Some body)]) ∧
  Forall (λ self', media self' = media self ∧ version self' = version self ∧
                   date self' = date self)
    [(finish self w).1; (update self p w).1; (__enter__ self w).1;
     (__exit__ self w).1].
Proof.
  unfold __exit__, finish, update, __enter__, start, pause, stop, post. simpl.
  repeat split; eauto.
  repeat constructor; simpl; destruct (Qltb (progress self) 80); done.
Qed.

(** After [finish] the progress is not below 80: the test of [finish]
    fails on it, so that a second [finish] leaves the scrobbler as the
    first left it and sends the same [scrobble/stop] payload again. *)
Theorem finish_settles self w w' :
  ¬ (progress (finish self w).1 < 80)%Q ∧
  (finish (finish self w).1 w').1 = (finish self w).1 ∧
  (finish (finish self w).1 w').2
  = w' ++ [mkRequest POST "scrobble/stop"
             (Some (_post (finish self w).1 "scrobble/stop").2)].
Proof.
  unfold finish. destruct (Qltb (progress self) 80) eqn:E; simpl.
  - split; [|by split]. intros H. apply Qltb_lt in H. discriminate H.
  - rewrite E. split; [|by split]. intros H. apply Qltb_lt in H. congruence.
Qed.

(** A scope entered and left issues two requests, a start with the
    progress at entry and then a stop with the progress [finish] settles
    on, and nothing else. *)
Theorem scope_start_then_stop self w :
  (__exit__ (__enter__ self w).1 (__enter__ self w).2).2
  = w ++ [mkRequest POST "scrobble/start"
            (Some (_post self "scrobble/start").2);
          mkRequest POST "scrobble/stop"
            (Some (_post (finish self w).1 "scrobble/stop").2)] ∧
  (__exit__ (__enter__ self w).1 (__enter__ self w).2).1 = (finish self w).1 ∧
  ((progress self < 80)%Q → progress (finish self w).1 = 100%Q) ∧
  (¬ (progress self < 80)%Q → (finish self w).1 = self).
Proof.
  unfold __exit__, __enter__, finish, start, stop, post. simpl.
  split; [by rewrite <- app_assoc|]. split; [done|].
  destruct (Qltb (progress self) 80) eqn:E; simpl.
  - apply Qltb_lt in E. split; [done | by intros []].
  - split; [|done]. intros Hlt. apply Qltb_lt in Hlt. congruence.
Qed.

(** Constructing a scrobbler with a progress above 0 is constructing it
    with progress 0 and then updating it to that progress: the same
    scrobbler and the same requests. *)
Theorem init_is_update media p app_version app_date w :
  (0 < p)%Q →
  __init__ media p app_version app_date w
  = update (__init__ media 0 app_version app_date w).1 p
      (__init__ media 0 app_version app_date w).2.
Proof.
  intros Hp. apply Qltb_lt in Hp. unfold __init__, update. simpl.
  by rewrite Hp.
Qed.

Lemma init_is_update_witness :
  (0 < 50)%Q ∧
  __init__ Examples.the_matrix 50 "1.0" "2014-09-01" []
  = update (__init__ Examples.the_matrix 0 "1.0" "2014-09-01" []).1 50
      (__init__ Examples.the_matrix 0 "1.0" "2014-09-01" []).2.
Proof.
  assert (0 < 50)%Q as Hp by reflexivity.
  split; [exact Hp|].
  exact (init_is_update Examples.the_matrix 50 "1.0" "2014-09-01" [] Hp).
Defined.

End ScrobblerExtra.
